(** * book_dashboard: record store, view filter, metrics and CSV export

    A shallow embedding of [book_dashboard.py].

    Modelling conventions.
    - A Python [str] is a Rocq [string]; a character stands for the code
      point of the same number (U+0000 .. U+00FF).
    - A SQLite [REAL] / Python [float] stands, in the store, the view
      filter, the pie chart and the export, for its exact rational value
      ([Q]); what is proved there is about the rows kept, their order and
      their text, not about identities between sums.  The three totals
      of the page are computed in binary64 ([Binary64], on primitive
      floats); infinities and NaN are outside the model.
    - The [books] table is the list of its rows in rowid order together
      with the [sqlite_sequence] counter that [AUTOINCREMENT] maintains.
    - A store function returns an [outcome] and the new database. *)

From Stdlib Require Import ZArith QArith Qabs Qround List Bool Lia.
From Stdlib Require Import Ascii String Permutation Sorted.
From Stdlib Require Import Strings.Byte.
From Stdlib Require Import DecimalString.
From Stdlib Require DecimalPos DecimalN.
From Stdlib Require PrimFloat.
Import ListNotations.

Local Open Scope Z_scope.

(** ** Outcomes of Python calls *)

Inductive py_exn : Set :=
| re_error            (* re.error raised by re.compile *)
| OperationalError.   (* sqlite3.OperationalError, here SQLITE_FULL *)

Inductive outcome (A : Type) : Type :=
| Returns (a : A)
| Raises (e : py_exn).

Arguments Returns {A} a.
Arguments Raises {A} e.

(** ** The data model *)

Record Book : Type := mkBook {
  id : Z;
  title : string;
  cost : Q;
  price : Q
}.

Record DB : Type := mkDB {
  books : list Book;          (* rows of table books *)
  sqlite_sequence : Z         (* largest rowid ever handed out *)
}.

(** [CREATE TABLE IF NOT EXISTS] on a fresh file. *)
Definition empty_db : DB := mkDB [] 0.

Definition init_db (file : option DB) : DB :=
  match file with
  | Some db => db
  | None => empty_db
  end.

Definition MAX_ROWID : Z := 9223372036854775807.

Definition ids (db : DB) : list Z := map id (books db).

Definition max_rowid (rows : list Book) : Z :=
  fold_right (fun b m => Z.max (id b) m) 0 rows.

(** ** Record store *)

Module Store.

(** [ORDER BY id ASC]: insertion of a row into a list ordered by id. *)
Fixpoint insert_by_id (b : Book) (rows : list Book) : list Book :=
  match rows with
  | [] => [b]
  | r :: rows' =>
      if id b <=? id r then b :: r :: rows' else r :: insert_by_id b rows'
  end.

Definition order_by_id (rows : list Book) : list Book :=
  fold_right insert_by_id [] rows.

(** [SELECT id, title, cost, price FROM books ORDER BY id ASC] *)
Definition fetch_books_df (db : DB) : list Book :=
  order_by_id (books db).

(** [INSERT INTO books (title, cost, price) VALUES (?, ?, ?)].  With
    AUTOINCREMENT the new rowid is one more than the largest rowid the
    table has ever held; when that is the largest 64-bit rowid the
    insert fails with SQLITE_FULL. *)
Definition add_book_db (title : string) (cost price : Q) (db : DB)
  : outcome unit * DB :=
  let largest := Z.max (sqlite_sequence db) (max_rowid (books db)) in
  if MAX_ROWID <=? largest then (Raises OperationalError, db)
  else
    let rowid := largest + 1 in
    (Returns tt, mkDB (books db ++ [mkBook rowid title cost price]) rowid).

(** [UPDATE books SET title=?, cost=?, price=? WHERE id=?] *)
Definition update_row (book_id : Z) (title : string) (cost price : Q)
  (b : Book) : Book :=
  if id b =? book_id then mkBook (id b) title cost price else b.

Definition update_book_db (book_id : Z) (title : string) (cost price : Q)
  (db : DB) : outcome unit * DB :=
  (Returns tt,
   mkDB (map (update_row book_id title cost price) (books db))
        (sqlite_sequence db)).

(** [DELETE FROM books WHERE id=?] *)
Definition delete_book_db (book_id : Z) (db : DB) : outcome unit * DB :=
  (Returns tt,
   mkDB (filter (fun b => negb (id b =? book_id)) (books db))
        (sqlite_sequence db)).

End Store.

Import Store.

(** ** Strings *)

Module Strings.

Local Open Scope char_scope.

Definition code (c : ascii) : N := N_of_ascii c.

(** [str.isspace] on U+0000 .. U+00FF: TAB .. CR, FS .. US, SPACE, NEL
    and NO-BREAK SPACE. *)
Definition isspace (c : ascii) : bool :=
  let n := code c in
  (((9 <=? n) && (n <=? 13)) || ((28 <=? n) && (n <=? 32))
   || (n =? 133) || (n =? 160))%N.

Fixpoint lstrip (s : string) : string :=
  match s with
  | EmptyString => EmptyString
  | String c s' => if isspace c then lstrip s' else s
  end.

(** Drops trailing whitespace: a character is kept when it is not
    whitespace or something is kept after it. *)
Fixpoint rstrip (s : string) : string :=
  match s with
  | EmptyString => EmptyString
  | String c s' =>
      match rstrip s' with
      | EmptyString => if isspace c then EmptyString else String c EmptyString
      | kept => String c kept
      end
  end.

(** [s.strip()] *)
Definition strip (s : string) : string := rstrip (lstrip s).

(** Truth value of a [str]: non-empty. *)
Definition truthy (s : string) : bool :=
  match s with
  | EmptyString => false
  | String _ _ => true
  end.

(** Simple lower-case mapping on U+0000 .. U+00FF. *)
Definition lower (c : ascii) : ascii :=
  let n := code c in
  if (((65 <=? n) && (n <=? 90))
      || ((192 <=? n) && (n <=? 214))
      || ((216 <=? n) && (n <=? 222)))%N
  then ascii_of_N (n + 32) else c.

Fixpoint lower_str (s : string) : string :=
  match s with
  | EmptyString => EmptyString
  | String c s' => String (lower c) (lower_str s')
  end.

End Strings.

Import Strings.

(** ** Form handlers of the page (the callers of the store) *)

Inductive st_message : Type :=
| TituloVazio                 (* st.error: title may not be empty *)
| LivroAdicionado (t : string)(* st.success: book added *)
| SelecioneLivro              (* st.warning: select a book first *)
| AlteracoesSalvas.           (* st.success: changes saved *)

(** Submit of the form in mode "Adicionar livro". *)
Definition submit_add (title : string) (cost price : Q) (db : DB)
  : outcome st_message * DB :=
  if negb (truthy (strip title)) then (Returns TituloVazio, db)
  else
    match add_book_db (strip title) cost price db with
    | (Returns _, db') => (Returns (LivroAdicionado (strip title)), db')
    | (Raises e, db') => (Raises e, db')
    end.

(** Submit of the form in mode "Editar livro existente". *)
Definition submit_edit (selected_book_id : option Z) (title_e : string)
  (cost_e price_e : Q) (db : DB) : outcome st_message * DB :=
  match selected_book_id with
  | None => (Returns SelecioneLivro, db)
  | Some book_id =>
      if negb (truthy (strip title_e)) then (Returns TituloVazio, db)
      else
        match update_book_db book_id (strip title_e) cost_e price_e db with
        | (Returns _, db') => (Returns AlteracoesSalvas, db')
        | (Raises e, db') => (Raises e, db')
        end
  end.

(** ** Histories of store operations *)

Inductive op : Type :=
| OpAdd (title : string) (cost price : Q)
| OpUpdate (book_id : Z) (title : string) (cost price : Q)
| OpDelete (book_id : Z).

Definition exec (o : op) (db : DB) : outcome unit * DB :=
  match o with
  | OpAdd t c p => add_book_db t c p db
  | OpUpdate i t c p => update_book_db i t c p db
  | OpDelete i => delete_book_db i db
  end.

(** Runs a history from left to right; a failed operation leaves the
    database as it was and the history goes on. *)
Fixpoint run (ops : list op) (db : DB) : DB :=
  match ops with
  | [] => db
  | o :: ops' => run ops' (snd (exec o db))
  end.

(** The ids handed out by the successful adds of a history, oldest
    first. *)
Fixpoint assigned_ids (ops : list op) (db : DB) : list Z :=
  match ops with
  | [] => []
  | o :: ops' =>
      let '(r, db') := exec o db in
      match o, r with
      | OpAdd _ _ _, Returns _ =>
          sqlite_sequence db' :: assigned_ids ops' db'
      | _, _ => assigned_ids ops' db'
      end
  end.

(** ** Regular expressions: the fragment of [re] that the search box is
    modelled on

    [Series.str.contains(pat, case=False, na=False)] leaves [regex] at
    its default [True]: [pat] is compiled with [re.IGNORECASE] and a
    title is kept when [re_search] finds a match in it.  The fragment has
    literals, [.], the greedy repeats [*], [+], [?] and alternation; the
    other special characters of [sre_parse] (backslash, brackets, braces,
    parentheses, anchors) and the lazy and possessive repeat suffixes are
    outside it, and compiling a text that uses them gives [None]. *)

Module Regex.

Local Open Scope char_scope.

Inductive atom : Set :=
| ALit (c : ascii)   (* a literal, stored lower-cased *)
| AAny.              (* [.]: any character but a newline *)

Inductive quant : Set := QOne | QStar | QPlus | QOpt.

Definition piece : Set := atom * quant.
Definition branch : Set := list piece.
Definition pattern : Set := list branch.     (* the alternatives *)

Definition one_of (cs : string) (c : ascii) : bool :=
  existsb (Ascii.eqb c) (list_ascii_of_string cs).

(** [SPECIAL_CHARS] of [sre_parse]. *)
Definition is_special (c : ascii) : bool := one_of ".\[{()*+?^$|" c.

Definition repeat_of (c : ascii) : option quant :=
  if Ascii.eqb c "*" then Some QStar
  else if Ascii.eqb c "+" then Some QPlus
  else if Ascii.eqb c "?" then Some QOpt
  else None.

(** Parsing, left to right; [alts] holds the finished alternatives and
    [cur] the pieces of the current one, both latest first. *)
Fixpoint parse (s : string) (alts : list branch) (cur : branch)
  : option (outcome pattern) :=
  match s with
  | EmptyString => Some (Returns (rev (rev cur :: alts)))
  | String c s' =>
      if Ascii.eqb c "|" then parse s' (rev cur :: alts) []
      else if Ascii.eqb c "." then parse s' alts ((AAny, QOne) :: cur)
      else
        match repeat_of c with
        | Some q =>
            match cur with
            | [] => Some (Raises re_error)           (* nothing to repeat *)
            | (a, QOne) :: cur' =>
                match s' with
                | String d _ =>
                    if one_of "?+" d then None
                    else parse s' alts ((a, q) :: cur')
                | EmptyString => parse s' alts ((a, q) :: cur')
                end
            | _ :: _ => Some (Raises re_error)       (* multiple repeat *)
            end
        | None =>
            if is_special c then None
            else parse s' alts ((ALit (lower c), QOne) :: cur)
        end
  end.

(** [re.compile(pat, flags=re.IGNORECASE)] *)
Definition re_compile (pat : string) : option (outcome pattern) :=
  parse pat [] [].

Definition atom_match (a : atom) (c : ascii) : bool :=
  match a with
  | ALit p => Ascii.eqb (lower c) p
  | AAny => negb (Ascii.eqb c "010")
  end.

Definition step (a : atom) (k : string -> bool) (s : string) : bool :=
  match s with
  | EmptyString => false
  | String c s' => atom_match a c && k s'
  end.

(** Zero or more [a], then [k]. *)
Fixpoint star (a : atom) (k : string -> bool) (s : string) : bool :=
  k s ||
  match s with
  | EmptyString => false
  | String c s' => atom_match a c && star a k s'
  end.

(** Some prefix of the string matches the pieces. *)
Fixpoint match_here (ps : branch) : string -> bool :=
  match ps with
  | [] => fun _ => true
  | (a, q) :: ps' =>
      let k := match_here ps' in
      match q with
      | QOne => step a k
      | QOpt => fun s => k s || step a k s
      | QStar => star a k
      | QPlus => step a (star a k)
      end
  end.

Definition match_at (p : pattern) (s : string) : bool :=
  existsb (fun b => match_here b s) p.

(** [pat.search(s) is not None] *)
Fixpoint re_search (p : pattern) (s : string) : bool :=
  match_at p s ||
  match s with
  | EmptyString => false
  | String _ s' => re_search p s'
  end.

End Regex.

Import Regex.

(** ** Data frames and the view filter *)

Local Open Scope Q_scope.

Definition Qlt_bool (a b : Q) : bool := negb (Qle_bool b a).

(** A frame read from the store has the four table columns; the profit
    filters add a fifth column [profit]. *)
Inductive DataFrame : Type :=
| Plain (rows : list Book)
| WithProfit (rows : list (Book * Q)).

Definition base_columns : list string :=
  ["id"; "title"; "cost"; "price"]%string.

Definition columns (df : DataFrame) : list string :=
  match df with
  | Plain _ => base_columns
  | WithProfit _ => base_columns ++ ["profit"%string]
  end.

Definition records (df : DataFrame) : list Book :=
  match df with
  | Plain rows => rows
  | WithProfit rows => map fst rows
  end.

(** The column [profit], when the frame has one. *)
Definition profit_column (df : DataFrame) : option (list Q) :=
  match df with
  | Plain _ => None
  | WithProfit rows => Some (map snd rows)
  end.

(** [df[mask]] for a mask computed from the four table columns. *)
Definition select_rows (keep : Book -> bool) (df : DataFrame) : DataFrame :=
  match df with
  | Plain rows => Plain (filter keep rows)
  | WithProfit rows => WithProfit (filter (fun r => keep (fst r)) rows)
  end.

(** [df['profit'] = df['price'] - df['cost']] *)
Definition assign_profit (df : DataFrame) : list (Book * Q) :=
  map (fun b => (b, price b - cost b)) (records df).

Inductive profit_mode : Set :=
| Todos                 (* "Todos" *)
| LucroPositivo         (* "Lucro positivo" *)
| LucroNegativoZero.    (* "Lucro negativo/zero" *)

(** [df2[df2['title'].str.contains(search, case=False, na=False)]] *)
Definition str_contains_filter (search : string) (df2 : DataFrame)
  : option (outcome DataFrame) :=
  match re_compile search with
  | Some (Returns p) =>
      Some (Returns (select_rows (fun b => re_search p (title b)) df2))
  | Some (Raises e) => Some (Raises e)
  | None => None
  end.

Definition apply_filters (search : string) (filter_profit : profit_mode)
  (df_orig : DataFrame) : option (outcome DataFrame) :=
  let df2 := df_orig in
  match (if truthy search then str_contains_filter search df2
         else Some (Returns df2)) with
  | Some (Returns df2) =>
      match filter_profit with
      | Todos => Some (Returns df2)
      | LucroPositivo =>
          Some (Returns
                  (WithProfit (filter (fun r => Qlt_bool 0 (snd r))
                                      (assign_profit df2))))
      | LucroNegativoZero =>
          Some (Returns
                  (WithProfit (filter (fun r => Qle_bool (snd r) 0)
                                      (assign_profit df2))))
      end
  | Some (Raises e) => Some (Raises e)
  | None => None
  end.

(** ** Metrics *)

(** [Series.sum()] on exact values: the values are added in series
    order, without rounding. *)
Definition Qsum (l : list Q) : Q := fold_left Qplus l 0.

Definition is_empty {A : Type} (l : list A) : bool :=
  match l with [] => true | _ :: _ => false end.

(** An entry of the series [prof]: index label and value. *)
Definition entry : Type := string * Q.

(** [df.set_index('title')['profit'].abs()] *)
Definition abs_profit (df : list Book) : list entry :=
  map (fun b => (title b, Qabs (price b - cost b))) df.

(** What [sort_values(ascending=False)] promises whatever the sort kind:
    the entries come back rearranged, values non-increasing. *)
Definition descending : list entry -> Prop :=
  StronglySorted (fun a b : entry => snd b <= snd a).

Definition sorts_descending (sort_values : list entry -> list entry) : Prop :=
  forall l, Permutation l (sort_values l) /\ descending (sort_values l).

Definition Outros : string := "Outros"%string.

(** Labels and values handed to [px.pie]; [None] is the empty figure. *)
Definition profit_distribution (sort_values : list entry -> list entry)
  (df : list Book) : option (list string * list Q) :=
  if is_empty df then None
  else
    let prof := sort_values (abs_profit df) in
    if (8 <? List.length prof)%nat then
      let top := firstn 8 prof in
      let others := Qsum (map snd (skipn 8 prof)) in
      Some (map fst top ++ [Outros], map snd top ++ [others])
    else Some (map fst prof, map snd prof).

(** A sort kind that keeps the promise: an insertion sort that puts an
    entry in front of the entries already placed whose value is not
    larger. *)
Fixpoint insert_before_ties (x : entry) (l : list entry) : list entry :=
  match l with
  | [] => [x]
  | y :: l' =>
      if Qle_bool (snd y) (snd x) then x :: y :: l'
      else y :: insert_before_ties x l'
  end.

Definition stable_sort (l : list entry) : list entry :=
  fold_right insert_before_ties [] l.

(** ** The totals of the page

    [cost] and [price] are [REAL] columns; the frame holds them as
    doubles and the three totals are sums of doubles. *)

Module Binary64.

Import PrimFloat.

Local Open Scope float_scope.

(** The columns [cost] and [price] of one row of the frame. *)
Record Amounts : Set := mkAmounts {
  cost : float;
  price : float
}.

(** [Series.sum()] of a float64 column.  A column of fewer than eight
    values is added one value after the other, in column order, which
    gives the double below up to the sign of a zero; a longer one is
    added in blocks, in an order that is NumPy's own and is not
    modelled: [None]. *)
Definition sum (values : list float) : option float :=
  if (List.length values <? 8)%nat
  then Some (fold_left add values 0)
  else None.

(** [df['cost'].sum() if not df.empty else 0.0] *)
Definition total_cost (df : list Amounts) : option float :=
  if is_empty df then Some 0 else sum (map cost df).

(** [df['price'].sum() if not df.empty else 0.0] *)
Definition total_price (df : list Amounts) : option float :=
  if is_empty df then Some 0 else sum (map price df).

(** [(df['price'] - df['cost']).sum() if not df.empty else 0.0] *)
Definition total_profit (df : list Amounts) : option float :=
  if is_empty df then Some 0
  else sum (map (fun r => price r - cost r) df).

(** [total_price - total_cost], the value the specification gives for
    the total profit. *)
Definition price_minus_cost (df : list Amounts) : option float :=
  match total_price df, total_cost df with
  | Some p, Some c => Some (p - c)
  | _, _ => None
  end.



(** The three books of the sample: costs 10, 8, 12 and prices 25, 8, 9. *)
Definition three_rows : list Amounts :=
  [mkAmounts 10 25; mkAmounts 8 8; mkAmounts 12 9].

End Binary64.

(** ** CSV export *)

Module Csv.

Local Open Scope string_scope.
Local Open Scope Z_scope.

(** The signature that codec [utf-8-sig] writes first. *)
Definition BOM : list byte := [xef; xbb; xbf].

(** UTF-8 of a code point below U+0100: one byte below U+0080, else two. *)
Definition utf8_char (c : ascii) : list byte :=
  let n := N_of_ascii c in
  if (n <? 128)%N then [byte_of_ascii c]
  else [byte_of_ascii (ascii_of_N (192 + n / 64));
        byte_of_ascii (ascii_of_N (128 + n mod 64))].

Fixpoint utf8_encode (s : string) : list byte :=
  match s with
  | EmptyString => []
  | String c s' => (utf8_char c ++ utf8_encode s')%list
  end.

(** [s.encode('utf-8-sig')] *)
Definition encode_utf8_sig (s : string) : list byte :=
  (BOM ++ utf8_encode s)%list.

(** Nearest integer, ties to the even one. *)
Definition round_half_even (x : Q) : Z :=
  let n := Qnum x in
  let d := Zpos (Qden x) in
  let fl := n / d in
  match 2 * (n mod d) ?= d with
  | Lt => fl
  | Gt => fl + 1
  | Eq => if Z.even fl then fl else fl + 1
  end.

Definition digit (n : Z) : ascii := ascii_of_N (48 + Z.to_N n).

(** [str(n)] for a natural number. *)
Definition decimal (n : Z) : string :=
  NilZero.string_of_uint (N.to_uint (Z.to_N n)).

(** [str(n)] for an integer. *)
Definition str_int (n : Z) : string :=
  if n <? 0 then "-" ++ decimal (- n) else decimal n.

Definition two_digits (f : Z) : string :=
  String (digit (f / 10)) (String (digit (f mod 10)) EmptyString).

(** ["%.2f" % x] *)
Definition format_2f (x : Q) : string :=
  let h := Z.abs (round_half_even (x * 100)) in
  (if Qlt_bool x 0 then "-" else "")
  ++ decimal (h / 100) ++ "." ++ two_digits (h mod 100).

Definition quotechar : ascii := ascii_of_N 34.

(** [csv.QUOTE_MINIMAL]: a field is quoted when it holds the delimiter,
    the quote character or a character of the line terminator; a quote
    character inside it is doubled. *)
Definition needs_quoting (lineterminator : string) (field : string) : bool :=
  existsb (fun c => Ascii.eqb c "," || Ascii.eqb c quotechar
                    || one_of lineterminator c)
          (list_ascii_of_string field).

Fixpoint double_quotes (field : string) : string :=
  match field with
  | EmptyString => EmptyString
  | String c s =>
      if Ascii.eqb c quotechar then String c (String c (double_quotes s))
      else String c (double_quotes s)
  end.

Definition csv_field (lineterminator : string) (field : string) : string :=
  if needs_quoting lineterminator field
  then String quotechar (double_quotes field ++ String quotechar EmptyString)
  else field.

Fixpoint join (sep : string) (fields : list string) : string :=
  match fields with
  | [] => EmptyString
  | [f] => f
  | f :: fs => f ++ sep ++ join sep fs
  end.

Section CsvExport.

(** [os.linesep], the default line terminator of [DataFrame.to_csv]. *)
Variable linesep : string.

Definition book_fields (b : Book) : list string :=
  [str_int (id b); title b; format_2f (cost b); format_2f (price b)].

Definition row_fields (df : DataFrame) : list (list string) :=
  match df with
  | Plain rows => map book_fields rows
  | WithProfit rows =>
      map (fun r => (book_fields (fst r) ++ [format_2f (snd r)])%list) rows
  end.

Definition csv_line (fields : list string) : string :=
  join "," (map (csv_field linesep) fields) ++ linesep.

(** [df.to_csv(index=False, float_format="%.2f")] *)
Definition to_csv (df : DataFrame) : string :=
  csv_line (columns df) ++ concat "" (map csv_line (row_fields df)).

Definition to_csv_bytes (df : DataFrame) : list byte :=
  encode_utf8_sig (to_csv df).

(** The sidebar button "Exportar CSV (todos)"; [None] is the warning
    that there is nothing to export. *)
Definition export_csv (db : DB) : option (list byte) :=
  let df_export := fetch_books_df db in
  if is_empty df_export then None
  else Some (to_csv_bytes (Plain df_export)).

End CsvExport.

(** Reading the header back: the text after the signature, up to the
    first line break, cut at the commas. *)
Definition strip_bom (bs : list byte) : list byte :=
  match bs with
  | xef :: xbb :: xbf :: rest => rest
  | _ => bs
  end.

Fixpoint first_line (s : string) : string :=
  match s with
  | EmptyString => EmptyString
  | String c s' =>
      if Ascii.eqb c "010" || Ascii.eqb c "013" then EmptyString
      else String c (first_line s')
  end.

Fixpoint split_on (sep : ascii) (s : string) : list string :=
  match s with
  | EmptyString => [EmptyString]
  | String c s' =>
      if Ascii.eqb c sep then EmptyString :: split_on sep s'
      else
        match split_on sep s' with
        | f :: fs => String c f :: fs
        | [] => [String c EmptyString]
        end
  end.

Definition header_row (bs : list byte) : list string :=
  split_on "," (first_line (string_of_list_byte (strip_bom bs))).

Definition is_digit (c : ascii) : bool :=
  let n := N_of_ascii c in ((48 <=? n) && (n <=? 57))%N.

Definition all_digits (s : string) : bool :=
  forallb is_digit (list_ascii_of_string s).

(** Fixed notation with two decimals: optional sign, one or more
    digits, a point and two digits. *)
Definition two_decimals (s : string) : Prop :=
  exists (sign int_part : string) (d1 d2 : ascii),
    s = sign ++ int_part ++ "." ++ String d1 (String d2 EmptyString)
    /\ (sign = "" \/ sign = "-")
    /\ int_part <> ""
    /\ all_digits int_part = true
    /\ is_digit d1 = true /\ is_digit d2 = true.

(** The header of the specification's export format. *)
Definition six_column_names : list string :=
  ["Display Index"; "ID"; "Title"; "Cost"; "Price"; "Profit"].

End Csv.

Import Csv.

(** ** The substring search of the specification *)

(** [needle] is a prefix of [s]. *)
Fixpoint is_prefix (needle s : string) : bool :=
  match needle, s with
  | EmptyString, _ => true
  | String a needle', String b s' => Ascii.eqb a b && is_prefix needle' s'
  | String _ _, EmptyString => false
  end.

(** [needle] occurs in [s]. *)
Fixpoint is_substring (needle s : string) : bool :=
  is_prefix needle s ||
  match s with
  | EmptyString => false
  | String _ s' => is_substring needle s'
  end.

(** The title contains the search text, letter case ignored. *)
Definition contains_ignoring_case (search title : string) : bool :=
  is_substring (lower_str search) (lower_str title).

(** The profit condition of a mode. *)
Definition profit_condition (m : profit_mode) (b : Book) : bool :=
  match m with
  | Todos => true
  | LucroPositivo => Qlt_bool 0 (price b - cost b)
  | LucroNegativoZero => Qle_bool (price b - cost b) 0
  end.

(** ** Sample data *)

Definition dune : Book := mkBook 1 "Dune" 10 25.
Definition foundation : Book := mkBook 2 "Foundation" 8 8.
Definition neuromancer : Book := mkBook 3 "Neuromancer" 12 9.

Definition three_books : list Book := [dune; foundation; neuromancer].

Definition sample_db : DB := mkDB three_books 3.

(** Two snapshots for the pie chart: nine and ten books whose profits
    are 1, 2, ..., all different. *)
Definition numbered (n : positive) : Book :=
  mkBook (Zpos n) (String (ascii_of_pos (n + 64)) EmptyString)
         0 (Zpos n # 1).

Definition nine_books : list Book :=
  map numbered [1; 2; 3; 4; 5; 6; 7; 8; 9]%positive.

Definition ten_books : list Book :=
  map numbered [1; 2; 3; 4; 5; 6; 7; 8; 9; 10]%positive.

(** ** Line terminators *)

Definition LF : string := String (ascii_of_N 10) EmptyString.
Definition CRLF : string := String (ascii_of_N 13) LF.

(** [os.linesep] *)
Definition os_linesep (windows : bool) : string :=
  if windows then CRLF else LF.

(** ** Consistency of a database file

    What SQLite maintains for a table with an [INTEGER PRIMARY KEY
    AUTOINCREMENT]: rows are kept in rowid order without repetition, and
    no rowid exceeds the counter in [sqlite_sequence]. *)
Definition consistent (db : DB) : Prop :=
  StronglySorted Z.lt (ids db)
  /\ Forall (fun i => (0 < i <= sqlite_sequence db)%Z) (ids db)
  /\ (0 <= sqlite_sequence db)%Z.

(** ** Search texts that are plain text *)

(** No character of the text is special to [sre_parse]. *)
Definition plain_text (s : string) : bool :=
  forallb (fun c => negb (is_special c)) (list_ascii_of_string s).

(** The pieces a plain text compiles to: its letters, lower-cased. *)
Fixpoint literal_pieces (s : string) : branch :=
  match s with
  | EmptyString => []
  | String c s' => (ALit (lower c), QOne) :: literal_pieces s'
  end.

(** What the view filter of the specification keeps. *)
Definition keeps (search : string) (m : profit_mode) (b : Book) : bool :=
  (negb (truthy search) || contains_ignoring_case search (title b))
  && profit_condition m b.

(** The characters of a formatted number. *)
Definition number_char (c : ascii) : bool :=
  is_digit c || Ascii.eqb c "-" || Ascii.eqb c ".".

(** Ascending order of id. *)
Definition by_id (a b : Book) : Prop := (id a <= id b)%Z.

(** ** The table shown on the page *)

Record DisplayRow : Type := mkDisplayRow {
  Indice : nat;       (* column 'Indice' (with an acute accent on the I) *)
  ID : Z;
  Titulo : string;    (* column 'Titulo' (with an acute accent on the i) *)
  Custo : Q;          (* column 'Custo (R$)' *)
  Venda : Q;          (* column 'Venda (R$)' *)
  Lucro : Q           (* column 'Lucro (R$)' *)
}.

(** The six column names; U+00CD and U+00ED are the accented letters. *)
Definition display_columns : list string :=
  [String (ascii_of_N 205) "ndice"; "ID";
   String "T" (String (ascii_of_N 237) "tulo");
   "Custo (R$)"; "Venda (R$)"; "Lucro (R$)"]%string.

(** [df_with_index_for_display], for a frame that has the column [id]
    (every frame read from the store and every filtered frame has it):
    the profit is computed from price and cost, the rows are numbered
    [range(1, len(df2) + 1)] and the six columns are selected, which
    drops a column [profit]. *)
Definition df_with_index_for_display (df : DataFrame) : list DisplayRow :=
  let df2 := records df in
  map (fun ib : nat * Book =>
         let (i, b) := ib in
         mkDisplayRow i (id b) (title b) (cost b) (price b)
                      (price b - cost b))
      (combine (seq 1 (List.length df2)) df2).

(** ** Selecting a book, the edit form and the delete section *)

Inductive page_exn : Set :=
| NameError      (* a name is read that no statement has bound *)
| ValueError     (* list.index: the value is not in the list *)
| KeyError       (* mapping.loc: no such label *)
| IndexError.    (* iloc[0] on an empty selection *)

Inductive result (A : Type) : Type :=
| Ok (a : A)
| Err (e : page_exn).

Arguments Ok {A} a.
Arguments Err {A} e.

(** The module-level name [selected_book_id]: bound, to [None] or to an
    id, only by the branch that lists the choices. *)
Inductive binding : Type :=
| Unbound
| Bound (selected_book_id : option Z).

Inductive form_mode : Set :=
| AdicionarLivro          (* "Adicionar livro" *)
| EditarLivroExistente.   (* "Editar livro existente" *)

(** [l.index(x)]; [None] stands for the [ValueError]. *)
Fixpoint index (x : string) (l : list string) : option nat :=
  match l with
  | [] => None
  | y :: l' => if String.eqb y x then Some 0%nat
               else option_map S (index x l')
  end.

Section Selection.

Local Open Scope string_scope.

(** The dash of the choice texts, U+2014, lies outside the code points a
    character stands for; the texts are built around this parameter. *)
Variable dash : ascii.

(** The first option of the select box: no book. *)
Definition nenhum : string :=
  String dash (" nenhum " ++ String dash EmptyString).

(** The text of a choice: display index, dash, title and price. *)
Definition choice_str (i : nat) (b : Book) : string :=
  decimal (Z.of_nat i) ++ " " ++ String dash (" " ++ title b
    ++ " (Venda: R$ " ++ format_2f (price b) ++ ")").

Definition choice_strs (mapping : list Book) : list string :=
  map (fun ib : nat * Book => let (i, b) := ib in choice_str i b)
      (combine (seq 1 (List.length mapping)) mapping).

(** The section "Acoes rapidas": what [selected_book_id] is bound to
    once the choice made in the select box is known. *)
Definition quick_actions (df_filtered : DataFrame) (selected_choice : string)
  : result binding :=
  if is_empty (records df_filtered) then Ok Unbound
  else
    let mapping := records df_filtered in
    if String.eqb selected_choice nenhum then Ok (Bound None)
    else
      match index selected_choice (choice_strs mapping) with
      | None => Err ValueError
      | Some idx =>
          match nth_error mapping idx with
          | Some b => Ok (Bound (Some (id b)))
          | None => Err KeyError
          end
      end.

End Selection.

(** Reading the name [selected_book_id]. *)
Definition read_selected (sel : binding) : result (option Z) :=
  match sel with
  | Unbound => Err NameError
  | Bound v => Ok v
  end.

(** [df[df['id'] == selected_book_id].iloc[0]] *)
Definition sel_row (df : list Book) (selected_book_id : Z) : result Book :=
  match filter (fun b => id b =? selected_book_id)%Z df with
  | b :: _ => Ok b
  | [] => Err IndexError
  end.

(** The form area before a submit: the row loaded into the edit form,
    if there is one. *)
Definition form_area (mode : form_mode) (df : list Book) (sel : binding)
  : result (option Book) :=
  match mode with
  | AdicionarLivro => Ok None
  | EditarLivroExistente =>
      match read_selected sel with
      | Err e => Err e
      | Ok None => Ok None
      | Ok (Some book_id) =>
          match sel_row df book_id with
          | Ok b => Ok (Some b)
          | Err e => Err e
          end
      end
  end.

(** The delete section with its button not pressed: it reads
    [selected_book_id] to decide whether to show the button. *)
Definition delete_section (sel : binding) : result bool :=
  match read_selected sel with
  | Err e => Err e
  | Ok None => Ok false
  | Ok (Some _) => Ok true
  end.

(** One run of the script from the quick actions to the delete section
    with no button pressed: the row in the edit form and whether the
    delete button is shown. *)
Definition render (dash : ascii) (mode : form_mode) (df : list Book)
  (df_filtered : DataFrame) (selected_choice : string)
  : result (option Book * bool) :=
  match quick_actions dash df_filtered selected_choice with
  | Err e => Err e
  | Ok sel =>
      match form_area mode df sel with
      | Err e => Err e
      | Ok row =>
          match delete_section sel with
          | Err e => Err e
          | Ok button => Ok (row, button)
          end
      end
  end.

(** ** Histories of form submissions *)

Inductive submission : Type :=
| SubmitAdd (title : string) (cost price : Q)
| SubmitEdit (selected_book_id : option Z) (title : string) (cost price : Q).

Definition submit (f : submission) (db : DB) : outcome st_message * DB :=
  match f with
  | SubmitAdd t c p => submit_add t c p db
  | SubmitEdit i t c p => submit_edit i t c p db
  end.

Fixpoint run_forms (fs : list submission) (db : DB) : DB :=
  match fs with
  | [] => db
  | f :: fs' => run_forms fs' (snd (submit f db))
  end.

(** A title as the forms store it: not empty, no whitespace at either
    end. *)
Definition trimmed (t : string) : Prop :=
  t <> EmptyString /\ strip t = t.

(** ** Reading the export back *)

Module Reader.

Local Open Scope string_scope.

(** UTF-8 of code points below U+0100, decoded; [None] for any other
    byte sequence. *)
Fixpoint utf8_decode (bs : list byte) : option string :=
  match bs with
  | [] => Some EmptyString
  | b :: bs' =>
      let n := Byte.to_N b in
      if (n <? 128)%N
      then option_map (String (ascii_of_byte b)) (utf8_decode bs')
      else if ((n =? 194) || (n =? 195))%N then
        match bs' with
        | c :: bs'' =>
            let m := Byte.to_N c in
            if ((128 <=? m) && (m <? 192))%N
            then option_map
                   (String (ascii_of_N ((n - 192) * 64 + (m - 128))))
                   (utf8_decode bs'')
            else None
        | [] => None
        end
      else None
  end.

(** [bytes.decode('utf-8-sig')] *)
Definition decode_utf8_sig (bs : list byte) : option string :=
  utf8_decode (strip_bom bs).

(** The reader of Python's [csv] module under its default dialect
    (delimiter [,], quote character, doubled quotes, not strict), over a
    text read with [newline=''].  [field] is the field being collected. *)
Inductive state : Set :=
| START_FIELD
| IN_FIELD
| IN_QUOTED_FIELD
| QUOTE_IN_QUOTED_FIELD.

Definition line_break (c : ascii) : bool :=
  Ascii.eqb c "010" || Ascii.eqb c "013".

(** The text after a line break that starts with [c]: a line feed right
    after a carriage return belongs to the same break. *)
Definition after_break (c : ascii) (s : string) : string :=
  match s with
  | String d s' => if Ascii.eqb c "013" && Ascii.eqb d "010" then s' else s
  | EmptyString => EmptyString
  end.

Definition add_char (field : string) (c : ascii) : string :=
  field ++ String c EmptyString.

Definition save_field (field : string) (r : list string * string)
  : list string * string :=
  (field :: fst r, snd r).

(** The fields of the record that starts here, and the text after the
    line break that ends it.  An unquoted field ends at a comma and at
    any carriage return or line feed; the end of the text ends the
    record. *)
Fixpoint read_record (st : state) (field : string) (s : string)
  : list string * string :=
  match s with
  | EmptyString => ([field], EmptyString)
  | String c s' =>
      match st with
      | START_FIELD =>
          if line_break c then ([field], after_break c s')
          else if Ascii.eqb c quotechar
               then read_record IN_QUOTED_FIELD field s'
          else if Ascii.eqb c ","
               then save_field field (read_record START_FIELD EmptyString s')
          else read_record IN_FIELD (add_char field c) s'
      | IN_FIELD =>
          if line_break c then ([field], after_break c s')
          else if Ascii.eqb c ","
               then save_field field (read_record START_FIELD EmptyString s')
          else read_record IN_FIELD (add_char field c) s'
      | IN_QUOTED_FIELD =>
          if Ascii.eqb c quotechar
          then read_record QUOTE_IN_QUOTED_FIELD field s'
          else read_record IN_QUOTED_FIELD (add_char field c) s'
      | QUOTE_IN_QUOTED_FIELD =>
          if Ascii.eqb c quotechar
          then read_record IN_QUOTED_FIELD (add_char field c) s'
          else if Ascii.eqb c ","
               then save_field field (read_record START_FIELD EmptyString s')
          else if line_break c then ([field], after_break c s')
          else read_record IN_FIELD (add_char field c) s'
      end
  end.

(** [next(reader)]: [None] at the end of the text; a line that holds
    nothing is the record without fields. *)
Definition reader_next (s : string) : option (list string * string) :=
  match s with
  | EmptyString => None
  | String c s' =>
      if line_break c then Some ([], after_break c s')
      else Some (read_record START_FIELD EmptyString s)
  end.

(** [list(csv.reader(...))]: the records of a text, at most [fuel] of
    them. *)
Fixpoint reader_rows (fuel : nat) (s : string) : list (list string) :=
  match fuel with
  | O => []
  | S fuel' =>
      match reader_next s with
      | None => []
      | Some (fields, rest) => fields :: reader_rows fuel' rest
      end
  end.

(** A text has no more records than characters. *)
Definition read_csv (s : string) : list (list string) :=
  reader_rows (String.length s) s.

(** No carriage return in the text. *)
Definition no_carriage_return (s : string) : bool :=
  negb (one_of s "013").

End Reader.

Import Reader.

(* ================================================================== *)
(** * Properties *)
(* ================================================================== *)

(** ** The record store *)

Section StoreFacts.

Local Open Scope Z_scope.

Lemma max_rowid_bound (rows : list Book) (m : Z) :
  0 <= m -> Forall (fun i => 0 < i <= m) (map id rows) -> max_rowid rows <= m.
Proof.
  intros Hm. induction rows as [|b rows IH]; simpl; intros H.
  - exact Hm.
  - inversion H; subst. specialize (IH H3). lia.
Qed.

Lemma largest_is_sequence (db : DB) :
  consistent db ->
  Z.max (sqlite_sequence db) (max_rowid (books db)) = sqlite_sequence db.
Proof.
  intros (_ & Hle & Hpos).
  pose proof (max_rowid_bound (books db) (sqlite_sequence db) Hpos Hle). lia.
Qed.

Lemma consistent_empty : consistent empty_db.
Proof.
  repeat split; simpl; try constructor; lia.
Qed.

Lemma consistent_sample : consistent sample_db.
Proof.
  unfold consistent, ids. simpl. split; [|split; [|lia]].
  - repeat (apply SSorted_cons; [|repeat (apply Forall_cons; [lia|]);
                                   apply Forall_nil]).
    apply SSorted_nil.
  - repeat (apply Forall_cons; [lia|]). apply Forall_nil.
Qed.

Lemma sorted_snoc (l : list Z) (x : Z) :
  StronglySorted Z.lt l -> Forall (fun i => i < x) l ->
  StronglySorted Z.lt (l ++ [x]).
Proof.
  induction l as [|a l IH]; simpl; intros Hs Hf.
  - repeat constructor.
  - inversion Hs; subst. inversion Hf; subst.
    constructor; [now apply IH|].
    apply Forall_app; split; [assumption | now repeat constructor].
Qed.

Lemma add_book_db_spec (title : string) (cost price : Q) (db : DB) :
  consistent db -> sqlite_sequence db < MAX_ROWID ->
  add_book_db title cost price db =
    (Returns tt,
     mkDB (books db ++ [mkBook (sqlite_sequence db + 1) title cost price])
          (sqlite_sequence db + 1)).
Proof.
  intros Hc Hlt. unfold add_book_db.
  rewrite (largest_is_sequence db Hc).
  destruct (Z.leb_spec MAX_ROWID (sqlite_sequence db)); [lia | reflexivity].
Qed.

Lemma add_book_db_full (title : string) (cost price : Q) (db : DB) :
  consistent db -> MAX_ROWID <= sqlite_sequence db ->
  add_book_db title cost price db = (Raises OperationalError, db).
Proof.
  intros Hc Hge. unfold add_book_db.
  rewrite (largest_is_sequence db Hc).
  destruct (Z.leb_spec MAX_ROWID (sqlite_sequence db)); [reflexivity | lia].
Qed.

Lemma consistent_add (title : string) (cost price : Q) (db : DB) :
  consistent db -> consistent (snd (add_book_db title cost price db)).
Proof.
  intros Hc.
  destruct (Z_lt_le_dec (sqlite_sequence db) MAX_ROWID) as [Hlt | Hge].
  - rewrite (add_book_db_spec _ _ _ _ Hc Hlt). simpl.
    destruct Hc as (Hs & Hle & Hpos).
    unfold consistent, ids in *; simpl. rewrite map_app; simpl.
    split; [|split].
    + apply sorted_snoc; [assumption|].
      eapply Forall_impl; [|exact Hle]. simpl; intros; lia.
    + apply Forall_app; split.
      * eapply Forall_impl; [|exact Hle]. simpl; intros; lia.
      * repeat constructor; lia.
    + lia.
  - now rewrite (add_book_db_full _ _ _ _ Hc Hge).
Qed.

Lemma ids_update (book_id : Z) (title : string) (cost price : Q)
  (rows : list Book) :
  map id (map (update_row book_id title cost price) rows) = map id rows.
Proof.
  induction rows as [|b rows IH]; simpl; [reflexivity|].
  rewrite IH. unfold update_row. now destruct (id b =? book_id).
Qed.

Lemma consistent_update (book_id : Z) (title : string) (cost price : Q)
  (db : DB) :
  consistent db ->
  consistent (snd (update_book_db book_id title cost price db)).
Proof.
  unfold consistent, ids; simpl. now rewrite ids_update.
Qed.

Lemma sorted_filter {A : Type} (f : A -> Z) (keep : A -> bool)
  (rows : list A) :
  StronglySorted Z.lt (map f rows) ->
  StronglySorted Z.lt (map f (filter keep rows)).
Proof.
  induction rows as [|b rows IH]; simpl; intros Hs; [constructor|].
  inversion Hs; subst. destruct (keep b); simpl; [|now apply IH].
  constructor; [now apply IH|].
  rewrite Forall_forall in *. intros x Hx. apply H2.
  apply in_map_iff in Hx. destruct Hx as (y & <- & Hy).
  apply filter_In in Hy. apply in_map. tauto.
Qed.

Lemma consistent_delete (book_id : Z) (db : DB) :
  consistent db -> consistent (snd (delete_book_db book_id db)).
Proof.
  intros (Hs & Hle & Hpos). unfold consistent, ids; simpl.
  split; [|split].
  - now apply sorted_filter.
  - rewrite Forall_forall in *. intros x Hx. apply Hle.
    apply in_map_iff in Hx. destruct Hx as (y & <- & Hy).
    apply filter_In in Hy. apply in_map. tauto.
  - assumption.
Qed.

Lemma consistent_exec (o : op) (db : DB) :
  consistent db -> consistent (snd (exec o db)).
Proof.
  destruct o; simpl.
  - apply consistent_add.
  - apply consistent_update.
  - apply consistent_delete.
Qed.

Lemma consistent_run (ops : list op) (db : DB) :
  consistent db -> consistent (run ops db).
Proof.
  revert db. induction ops as [|o ops IH]; simpl; intros db Hc.
  - exact Hc.
  - apply IH. now apply consistent_exec.
Qed.

End StoreFacts.

Section StoreClaims.

Local Open Scope Z_scope.

Lemma order_by_id_sorted (rows : list Book) :
  StronglySorted Z.lt (map id rows) -> order_by_id rows = rows.
Proof.
  induction rows as [|b rows IH]; simpl; intros Hs; [reflexivity|].
  inversion Hs as [|? ? Hs' Hlt]; subst.
  unfold order_by_id in *; simpl. rewrite (IH Hs').
  destruct rows as [|r rows]; simpl; [reflexivity|].
  inversion Hlt; subst.
  destruct (Z.leb_spec (id b) (id r)); [reflexivity | lia].
Qed.

Lemma fetch_consistent (db : DB) :
  consistent db -> fetch_books_df db = books db.
Proof.
  intros (Hs & _). now apply order_by_id_sorted.
Qed.

Lemma update_row_other (book_id : Z) (title : string) (cost price : Q)
  (rows : list Book) :
  ~ In book_id (map id rows) ->
  map (update_row book_id title cost price) rows = rows.
Proof.
  induction rows as [|b rows IH]; simpl; intros Hn; [reflexivity|].
  rewrite IH by tauto. unfold update_row.
  destruct (Z.eqb_spec (id b) book_id); [tauto | reflexivity].
Qed.

Lemma delete_other (book_id : Z) (rows : list Book) :
  ~ In book_id (map id rows) ->
  filter (fun b => negb (id b =? book_id)) rows = rows.
Proof.
  induction rows as [|b rows IH]; simpl; intros Hn; [reflexivity|].
  destruct (Z.eqb_spec (id b) book_id); simpl; [tauto|].
  rewrite IH by tauto. reflexivity.
Qed.

Lemma delete_removes (book_id : Z) (rows : list Book) :
  ~ In book_id (map id (filter (fun b => negb (id b =? book_id)) rows)).
Proof.
  intros Hin. apply in_map_iff in Hin. destruct Hin as (b & Hid & Hb).
  apply filter_In in Hb. destruct Hb as [_ Hb].
  rewrite <- Hid, Z.eqb_refl in Hb. discriminate.
Qed.

(** The primary key: in a consistent database no id occurs twice. *)
Lemma primary_key_holds (db : DB) : consistent db -> NoDup (ids db).
Proof.
  intros (Hs & _ & _). induction Hs as [|a l Hs IH Hf]; constructor.
  - intros Hin. rewrite Forall_forall in Hf. specialize (Hf _ Hin). lia.
  - exact IH.
Qed.

Lemma sequence_grows (o : op) (db : DB) :
  consistent db -> sqlite_sequence db <= sqlite_sequence (snd (exec o db)).
Proof.
  intros Hc. destruct o; simpl; try lia.
  destruct (Z_lt_le_dec (sqlite_sequence db) MAX_ROWID) as [Hlt | Hge].
  - rewrite (add_book_db_spec _ _ _ _ Hc Hlt). simpl. lia.
  - rewrite (add_book_db_full _ _ _ _ Hc Hge). simpl. lia.
Qed.

Lemma assigned_ids_app (ops ops' : list op) (db : DB) :
  assigned_ids (ops ++ ops') db =
  (assigned_ids ops db ++ assigned_ids ops' (run ops db))%list.
Proof.
  revert db. induction ops as [|o ops IH]; simpl; intros db; [reflexivity|].
  destruct (exec o db) as [r db'] eqn:He; simpl.
  destruct o, r; simpl; rewrite IH; reflexivity.
Qed.

(** Every id handed out during a history lies above the counter the
    history started from, and each is larger than the one before. *)
Lemma assigned_ids_increase (ops : list op) (db : DB) :
  consistent db ->
  Forall (fun i => sqlite_sequence db < i <= sqlite_sequence (run ops db))
         (assigned_ids ops db)
  /\ StronglySorted Z.lt (assigned_ids ops db)
  /\ sqlite_sequence db <= sqlite_sequence (run ops db).
Proof.
  revert db. induction ops as [|o ops IH]; simpl; intros db Hc.
  - repeat split; try constructor. lia.
  - pose proof (sequence_grows o db Hc) as Hg.
    pose proof (consistent_exec o db Hc) as Hc'.
    destruct (IH _ Hc') as (Hb & Hs & Hle).
    assert (Hrest : Forall (fun i => sqlite_sequence db < i <=
                       sqlite_sequence (run ops (snd (exec o db))))
                      (assigned_ids ops (snd (exec o db)))).
    { eapply Forall_impl; [|exact Hb]. simpl; intros; lia. }
    destruct (exec o db) as [r db'] eqn:He; simpl in *.
    destruct o; simpl in He;
      try (destruct r; repeat split; (assumption || lia)).
    destruct (Z_lt_le_dec (sqlite_sequence db) MAX_ROWID) as [Hlt | Hge].
    + rewrite (add_book_db_spec _ _ _ _ Hc Hlt) in He.
      inversion He; subst; clear He. simpl in *.
      repeat split; try lia.
      * constructor; [lia | assumption].
      * constructor; [assumption|].
        eapply Forall_impl; [|exact Hb]. simpl; intros; lia.
    + rewrite (add_book_db_full _ _ _ _ Hc Hge) in He.
      inversion He; subst; clear He.
      repeat split; (assumption || lia).
Qed.

(** C9. The store hands out ids itself, larger than every id it has
    handed out before, deleted ones included: after any history of
    adds, updates and deletes on a fresh store, [add] followed by a
    listing shows the old listing with one new record at its end, which
    carries the given fields and an id above all earlier ids, so that
    the ids of the live records stay pairwise different.  The counter
    must not have reached the largest rowid of SQLite. *)
Theorem add_assigns_fresh_id (ops : list op) (title : string)
  (cost price : Q) :
  sqlite_sequence (run ops (init_db None)) < MAX_ROWID ->
  exists (new_id : Z) (db' : DB),
    add_book_db title cost price (run ops (init_db None)) = (Returns tt, db')
    /\ fetch_books_df db' =
       (fetch_books_df (run ops (init_db None))
          ++ [mkBook new_id title cost price])%list
    /\ assigned_ids (ops ++ [OpAdd title cost price]) (init_db None) =
       (assigned_ids ops (init_db None) ++ [new_id])%list
    /\ Forall (fun i => i < new_id) (assigned_ids ops (init_db None))
    /\ Forall (fun i => i < new_id) (ids (run ops (init_db None)))
    /\ NoDup (ids db').
Proof.
  change (init_db None) with empty_db. intros Hlt.
  pose proof (consistent_run ops empty_db consistent_empty) as Hc.
  pose proof (add_book_db_spec title cost price _ Hc Hlt) as Hadd.
  pose proof (consistent_add title cost price _ Hc) as Hc'.
  rewrite Hadd in Hc'; simpl in Hc'.
  eexists; eexists. split; [exact Hadd|].
  split; [|split; [|split; [|split]]].
  - rewrite (fetch_consistent _ Hc'), (fetch_consistent _ Hc). reflexivity.
  - rewrite assigned_ids_app. simpl. rewrite Hadd. reflexivity.
  - destruct (assigned_ids_increase ops empty_db consistent_empty)
      as (Hb & _ & _).
    eapply Forall_impl; [|exact Hb]. simpl; intros; lia.
  - destruct Hc as (_ & Hle & _).
    eapply Forall_impl; [|exact Hle]. simpl; intros; lia.
  - now apply primary_key_holds.
Qed.

Lemma add_assigns_fresh_id_witness :
  exists (new_id : Z) (db' : DB),
    add_book_db "Solaris" 7 11
      (run [OpAdd "Dune" 10 25; OpAdd "Emma" 3 4; OpDelete 2] (init_db None))
    = (Returns tt, db')
    /\ fetch_books_df db' =
       (fetch_books_df
          (run [OpAdd "Dune" 10 25; OpAdd "Emma" 3 4; OpDelete 2] (init_db None))
          ++ [mkBook new_id "Solaris" 7 11])%list
    /\ assigned_ids
         ([OpAdd "Dune" 10 25; OpAdd "Emma" 3 4; OpDelete 2]
            ++ [OpAdd "Solaris" 7 11]) (init_db None) =
       (assigned_ids [OpAdd "Dune" 10 25; OpAdd "Emma" 3 4; OpDelete 2]
          (init_db None) ++ [new_id])%list
    /\ Forall (fun i => i < new_id)
         (assigned_ids [OpAdd "Dune" 10 25; OpAdd "Emma" 3 4; OpDelete 2]
            (init_db None))
    /\ Forall (fun i => i < new_id)
         (ids (run [OpAdd "Dune" 10 25; OpAdd "Emma" 3 4; OpDelete 2]
                 (init_db None)))
    /\ NoDup (ids db').
Proof.
  apply (add_assigns_fresh_id
           [OpAdd "Dune" 10 25; OpAdd "Emma" 3 4; OpDelete 2] "Solaris" 7 11).
  vm_compute. reflexivity.
Defined.

End StoreClaims.

Section UpdateDelete.

Local Open Scope Z_scope.

Example deleted_id_is_not_reused :
  fetch_books_df
    (run [OpAdd "Dune" 10 25; OpAdd "Emma" 3 4; OpDelete 2;
          OpAdd "Solaris" 7 11] empty_db)
  = [mkBook 1 "Dune" 10 25; mkBook 3 "Solaris" 7 11].
Proof. reflexivity. Qed.

Lemma split_at_id (book_id : Z) (rows : list Book) :
  In book_id (map id rows) ->
  exists before old after,
    rows = (before ++ old :: after)%list /\ id old = book_id.
Proof.
  intros Hin. apply in_map_iff in Hin. destruct Hin as (old & Hid & Hin).
  destruct (in_split _ _ Hin) as (before & after & ->).
  now exists before, old, after.
Qed.

(** C8. For an id present in the store, whose ids are pairwise
    different as the primary key demands, [update] replaces title, cost
    and price of the one record with that id; the record keeps its id
    and its place, and every other record and the id counter stay as
    they were. *)
Theorem update_changes_only_that_record (db : DB) (book_id : Z)
  (title : string) (cost price : Q) :
  NoDup (ids db) -> In book_id (ids db) ->
  exists (before : list Book) (old : Book) (after : list Book),
    books db = (before ++ old :: after)%list
    /\ id old = book_id
    /\ update_book_db book_id title cost price db =
       (Returns tt,
        mkDB (before ++ mkBook book_id title cost price :: after)%list
             (sqlite_sequence db)).
Proof.
  intros Hnd Hin. unfold ids in *.
  destruct (split_at_id _ _ Hin) as (before & old & after & Hrows & Hid).
  exists before, old, after. split; [exact Hrows|]. split; [exact Hid|].
  unfold update_book_db. rewrite Hrows in *.
  rewrite map_app in *. simpl in *.
  apply NoDup_remove_2 in Hnd. rewrite Hid in Hnd.
  rewrite update_row_other
    by (intros H; apply Hnd; apply in_or_app; now left).
  rewrite update_row_other
    by (intros H; apply Hnd; apply in_or_app; now right).
  unfold update_row. rewrite Hid, Z.eqb_refl. reflexivity.
Qed.

Lemma update_changes_only_that_record_witness :
  exists (before : list Book) (old : Book) (after : list Book),
    books sample_db = (before ++ old :: after)%list
    /\ id old = 2
    /\ update_book_db 2 "Foundation and Empire" 9 14 sample_db =
       (Returns tt,
        mkDB (before ++ mkBook 2 "Foundation and Empire" 9 14 :: after)%list
             (sqlite_sequence sample_db)).
Proof.
  apply (update_changes_only_that_record sample_db 2
           "Foundation and Empire" 9 14).
  - repeat constructor; simpl; intuition discriminate.
  - simpl. tauto.
Defined.

(** C3, as the code has it.  For an id that is not in the store,
    [update] and [delete] return normally, with the value they return
    on success, and leave the store as it was: no row is changed or
    created and nothing is raised.  A second [delete] of the same id is
    such a call. *)
Theorem missing_id_is_a_silent_no_op (db : DB) (book_id : Z)
  (title : string) (cost price : Q) :
  ~ In book_id (ids db) ->
  update_book_db book_id title cost price db = (Returns tt, db)
  /\ delete_book_db book_id db = (Returns tt, db)
  /\ (forall db0 : DB,
        delete_book_db book_id (snd (delete_book_db book_id db0)) =
        (Returns tt, snd (delete_book_db book_id db0))).
Proof.
  intros Hn. destruct db as [rows seq]. unfold ids in Hn; simpl in Hn.
  unfold update_book_db, delete_book_db; simpl.
  rewrite (update_row_other _ _ _ _ _ Hn), (delete_other _ _ Hn).
  repeat split. intros db0.
  rewrite (delete_other book_id _ (delete_removes book_id (books db0))).
  reflexivity.
Qed.

Lemma missing_id_is_a_silent_no_op_witness :
  update_book_db 7 "Solaris" 7 11 sample_db = (Returns tt, sample_db)
  /\ delete_book_db 7 sample_db = (Returns tt, sample_db)
  /\ (forall db0 : DB,
        delete_book_db 7 (snd (delete_book_db 7 db0)) =
        (Returns tt, snd (delete_book_db 7 db0))).
Proof.
  apply (missing_id_is_a_silent_no_op sample_db 7 "Solaris" 7 11).
  simpl. intuition discriminate.
Defined.

(** C3 does not hold as stated: nothing tells the caller that the id
    was missing.  On the sample store, where id 7 is absent and id 1 is
    present, [update] and [delete] return the same value for both. *)
Lemma missing_id_is_not_reported :
  ~ In 7 (ids sample_db) /\ In 1 (ids sample_db)
  /\ fst (update_book_db 7 "Solaris" 7 11 sample_db) =
     fst (update_book_db 1 "Solaris" 7 11 sample_db)
  /\ fst (delete_book_db 7 sample_db) = fst (delete_book_db 1 sample_db).
Proof.
  repeat split; simpl; intuition discriminate.
Qed.

(** C1, as the code has it.  Validation sits in the form handlers, not
    in the store.  A title that is empty once trimmed is turned away by
    the handlers of the add and the edit form before the store is
    called: they report the error and the store is unchanged.  The
    store itself checks nothing: called with that title, and with any
    cost and price, negative ones included, [add_book_db] writes the
    new row and [update_book_db] rewrites the rows of the given id. *)
Theorem validation_is_in_the_form_handlers (title : string) (cost price : Q)
  (db : DB) :
  strip title = EmptyString ->
  consistent db -> sqlite_sequence db < MAX_ROWID ->
  submit_add title cost price db = (Returns TituloVazio, db)
  /\ (forall book_id : Z,
        submit_edit (Some book_id) title cost price db =
        (Returns TituloVazio, db))
  /\ add_book_db title cost price db =
     (Returns tt,
      mkDB (books db ++ [mkBook (sqlite_sequence db + 1) title cost price])
           (sqlite_sequence db + 1))
  /\ (forall book_id : Z,
        update_book_db book_id title cost price db =
        (Returns tt,
         mkDB (map (update_row book_id title cost price) (books db))
              (sqlite_sequence db))).
Proof.
  intros He Hc Hlt. unfold submit_add, submit_edit. rewrite He. simpl.
  split; [reflexivity|]. split; [intros; reflexivity|].
  split; [now apply add_book_db_spec | intros; reflexivity].
Qed.

Lemma validation_is_in_the_form_handlers_witness :
  submit_add "   " (-1) (-1) sample_db = (Returns TituloVazio, sample_db)
  /\ (forall book_id : Z,
        submit_edit (Some book_id) "   " (-1) (-1) sample_db =
        (Returns TituloVazio, sample_db))
  /\ add_book_db "   " (-1) (-1) sample_db =
     (Returns tt,
      mkDB (books sample_db
              ++ [mkBook (sqlite_sequence sample_db + 1) "   " (-1) (-1)])
           (sqlite_sequence sample_db + 1))
  /\ (forall book_id : Z,
        update_book_db book_id "   " (-1) (-1) sample_db =
        (Returns tt,
         mkDB (map (update_row book_id "   " (-1) (-1)) (books sample_db))
              (sqlite_sequence sample_db))).
Proof.
  apply (validation_is_in_the_form_handlers "   " (-1) (-1) sample_db).
  - reflexivity.
  - exact consistent_sample.
  - reflexivity.
Defined.

(** C1 does not hold as stated: the store checks nothing.  Called with
    an empty title and negative cost and price, [add_book_db] and
    [update_book_db] return normally and write the row. *)
Lemma store_writes_invalid_input :
  add_book_db "" (-1) (-1) empty_db =
    (Returns tt, mkDB [mkBook 1 "" (-1) (-1)] 1)
  /\ update_book_db 1 "  " (-1) (-1) sample_db =
    (Returns tt, mkDB [mkBook 1 "  " (-1) (-1); foundation; neuromancer] 3).
Proof.
  split; reflexivity.
Qed.

End UpdateDelete.

(** ** Metrics *)

Section Totals.

Local Open Scope Q_scope.

Lemma fold_left_Qplus (l : list Q) (a : Q) :
  fold_left Qplus l a == a + Qsum l.
Proof.
  unfold Qsum. revert a. induction l as [|x l IH]; simpl; intros a.
  - ring.
  - rewrite (IH (a + x)), (IH (0 + x)). ring.
Qed.

Lemma Qsum_cons (x : Q) (l : list Q) : Qsum (x :: l) == x + Qsum l.
Proof.
  unfold Qsum at 1. simpl. rewrite fold_left_Qplus. ring.
Qed.


Import PrimFloat.



(** The three books of the sample, whose amounts are whole numbers:
    the totals are 30, 42 and 12, and 12 is 42 minus 30. *)
Example totals_of_three_books :
  Binary64.total_cost Binary64.three_rows = Some 30%float
  /\ Binary64.total_price Binary64.three_rows = Some 42%float
  /\ Binary64.total_profit Binary64.three_rows = Some 12%float
  /\ Binary64.price_minus_cost Binary64.three_rows = Some 12%float.
Proof. repeat split; reflexivity. Qed.

End Totals.

(** ** The pie chart *)

Section SortKinds.

Local Open Scope Q_scope.

Lemma Qlt_bool_iff (a b : Q) : Qlt_bool a b = true <-> a < b.
Proof.
  unfold Qlt_bool. rewrite negb_true_iff.
  destruct (Qle_bool b a) eqn:E.
  - apply Qle_bool_iff in E. split; [discriminate|].
    intros H. exfalso. exact (Qlt_not_le _ _ H E).
  - split; [intros _ | reflexivity].
    apply Qnot_le_lt. intros H. apply Qle_bool_iff in H. congruence.
Qed.

Lemma Qlt_bool_false (a b : Q) : Qlt_bool a b = false <-> b <= a.
Proof.
  unfold Qlt_bool. rewrite negb_false_iff. apply Qle_bool_iff.
Qed.

Lemma insert_before_ties_perm (x : entry) (l : list entry) :
  Permutation (x :: l) (insert_before_ties x l).
Proof.
  induction l as [|y l IH]; simpl; [reflexivity|].
  destruct (Qle_bool (snd y) (snd x)); [reflexivity|].
  rewrite perm_swap. now constructor.
Qed.

Lemma descending_cons (x : entry) (l : list entry) :
  descending l -> Forall (fun b => snd b <= snd x) l -> descending (x :: l).
Proof.
  intros Hs Hf. now constructor.
Qed.

Lemma below_head (x y : entry) (l : list entry) :
  snd y <= snd x -> Forall (fun b => snd b <= snd y) l ->
  Forall (fun b => snd b <= snd x) (y :: l).
Proof.
  intros Hyx Hf. constructor; [assumption|].
  eapply Forall_impl; [|exact Hf]. simpl. intros b Hb.
  eapply Qle_trans; eassumption.
Qed.

Lemma insert_before_ties_descending (x : entry) (l : list entry) :
  descending l -> descending (insert_before_ties x l).
Proof.
  induction l as [|y l IH]; simpl; intros Hs.
  - repeat constructor.
  - inversion Hs as [|? ? Hs' Hf]; subst.
    destruct (Qle_bool (snd y) (snd x)) eqn:E.
    + apply Qle_bool_iff in E.
      apply descending_cons; [assumption | now apply below_head].
    + apply descending_cons; [now apply IH|].
      eapply Permutation_Forall; [apply insert_before_ties_perm|].
      constructor; [|assumption].
      apply Qlt_le_weak, Qlt_bool_iff. unfold Qlt_bool. now rewrite E.
Qed.

Lemma stable_sort_sorts : sorts_descending stable_sort.
Proof.
  intros l. unfold stable_sort.
  induction l as [|x l [IHp IHs]]; simpl.
  - split; constructor.
  - split.
    + rewrite <- insert_before_ties_perm. now constructor.
    + now apply insert_before_ties_descending.
Qed.

End SortKinds.

Section PieChart.

Local Open Scope Q_scope.

Lemma sorted_app_inv {A : Type} (R : A -> A -> Prop) (l1 l2 : list A) :
  StronglySorted R (l1 ++ l2) ->
  StronglySorted R l1
  /\ (forall a b, In a l1 -> In b l2 -> R a b).
Proof.
  induction l1 as [|x l1 IH]; simpl; intros Hs.
  - split; [constructor | contradiction].
  - inversion Hs as [|? ? Hs' Hf]; subst.
    destruct (IH Hs') as [H1 H2].
    apply Forall_app in Hf. destruct Hf as [Hf1 Hf2].
    split; [now constructor|].
    intros a b [<- | Ha] Hb.
    + rewrite Forall_forall in Hf2. now apply Hf2.
    + now apply H2.
Qed.

(** C5, as the code has it.  For a snapshot of more than eight records
    the chart takes the absolute profit of every record, sorts them
    largest first, shows the first eight under their titles and adds
    one entry, labelled "Outros", whose value is the sum of the absolute
    profits of the remaining records, none of which exceeds any of the
    eight. *)
Theorem others_bucket (sort_values : list entry -> list entry)
  (df : list Book) :
  sorts_descending sort_values -> (8 < List.length df)%nat ->
  exists top rest : list entry,
    Permutation (abs_profit df) (top ++ rest)
    /\ List.length top = 8%nat
    /\ List.length rest = (List.length df - 8)%nat
    /\ descending top
    /\ (forall a b, In a top -> In b rest -> snd b <= snd a)
    /\ profit_distribution sort_values df =
       Some (map fst top ++ [Outros], map snd top ++ [Qsum (map snd rest)])
    /\ List.length (map fst top ++ [Outros]) = 9%nat.
Proof.
  intros Hsort Hlen.
  destruct (Hsort (abs_profit df)) as [Hp Hd].
  assert (Hl : List.length (sort_values (abs_profit df)) = List.length df).
  { rewrite <- (Permutation_length Hp). unfold abs_profit.
    apply length_map. }
  exists (firstn 8 (sort_values (abs_profit df))),
         (skipn 8 (sort_values (abs_profit df))).
  rewrite firstn_skipn.
  assert (Htop : List.length (firstn 8 (sort_values (abs_profit df))) = 8%nat)
    by (rewrite length_firstn, Hl; lia).
  rewrite <- (firstn_skipn 8 (sort_values (abs_profit df))) in Hd.
  apply sorted_app_inv in Hd. destruct Hd as [Hd1 Hd2].
  split; [exact Hp|]. split; [exact Htop|].
  split; [rewrite length_skipn, Hl; reflexivity|].
  split; [exact Hd1|]. split; [exact Hd2|]. split.
  - unfold profit_distribution.
    destruct df as [|b0 df]; [simpl in Hlen; lia|].
    cbn [is_empty]. rewrite Hl.
    destruct (Nat.ltb_spec 8 (List.length (b0 :: df))); [reflexivity | lia].
  - rewrite length_app, length_map. unfold entry in *.
    rewrite Htop. reflexivity.
Qed.

Lemma others_bucket_witness :
  exists top rest : list entry,
    Permutation (abs_profit ten_books) (top ++ rest)
    /\ List.length top = 8%nat
    /\ List.length rest = (List.length ten_books - 8)%nat
    /\ descending top
    /\ (forall a b, In a top -> In b rest -> snd b <= snd a)
    /\ profit_distribution stable_sort ten_books =
       Some (map fst top ++ [Outros], map snd top ++ [Qsum (map snd rest)])
    /\ List.length (map fst top ++ [Outros]) = 9%nat.
Proof.
  apply (others_bucket stable_sort ten_books).
  - exact stable_sort_sorts.
  - simpl. lia.
Defined.

Example ten_books_chart :
  profit_distribution stable_sort ten_books =
  Some (["J"; "I"; "H"; "G"; "F"; "E"; "D"; "C"; Outros]%string,
        [10; 9; 8; 7; 6; 5; 4; 3; 0 + 2 + 1]).
Proof. reflexivity. Qed.

(** C5 does not hold as stated in one respect: the label of the
    additional entry is "Outros"; no entry is labelled "Other". *)
Lemma bucket_label_is_not_Other :
  exists labels vals,
    profit_distribution stable_sort nine_books = Some (labels, vals)
    /\ last labels EmptyString = "Outros"%string
    /\ ~ In "Other"%string labels.
Proof.
  eexists; eexists. split; [reflexivity|].
  split; [reflexivity|].
  simpl. intuition discriminate.
Qed.

End PieChart.

(** ** The view filter *)

Section SearchBox.

Local Open Scope string_scope.

Lemma not_special (c : ascii) :
  is_special c = false ->
  Ascii.eqb c "|" = false /\ Ascii.eqb c "." = false /\ repeat_of c = None.
Proof.
  unfold is_special, one_of, repeat_of. simpl. intros H.
  repeat (apply orb_false_elim in H; destruct H as [? H]).
  repeat match goal with E : Ascii.eqb c _ = false |- _ => rewrite E; clear E end.
  auto.
Qed.

Lemma parse_plain_text (s : string) (alts : list branch) (cur : branch) :
  plain_text s = true ->
  parse s alts cur =
  Some (Returns (rev (rev (rev (literal_pieces s) ++ cur) :: alts))).
Proof.
  revert cur. induction s as [|c s IH]; intros cur Hp.
  - reflexivity.
  - unfold plain_text in Hp. simpl in Hp.
    apply andb_prop in Hp. destruct Hp as [Hc Hs].
    apply negb_true_iff in Hc.
    destruct (not_special c Hc) as (E1 & E2 & E3).
    cbn [parse]. rewrite E1, E2, E3, Hc.
    rewrite (IH _ Hs). cbn [literal_pieces rev].
    now rewrite <- app_assoc.
Qed.

Lemma re_compile_plain_text (s : string) :
  plain_text s = true -> re_compile s = Some (Returns [literal_pieces s]).
Proof.
  intros Hp. unfold re_compile. rewrite (parse_plain_text _ _ _ Hp).
  cbn [rev]. now rewrite !app_nil_r, rev_involutive.
Qed.

Lemma match_here_literal (s t : string) :
  match_here (literal_pieces s) t = is_prefix (lower_str s) (lower_str t).
Proof.
  revert t. induction s as [|c s IH]; intros t; simpl.
  - reflexivity.
  - destruct t as [|d t]; simpl; [reflexivity|].
    rewrite IH, (Ascii.eqb_sym (lower d)). reflexivity.
Qed.

Lemma search_literal (s t : string) :
  re_search [literal_pieces s] t = contains_ignoring_case s t.
Proof.
  unfold contains_ignoring_case.
  induction t as [|d t IH]; simpl;
    rewrite match_here_literal, orb_false_r; simpl.
  - reflexivity.
  - now rewrite IH.
Qed.

Lemma filter_ext_in_bool {A : Type} (f g : A -> bool) (l : list A) :
  (forall a, f a = g a) -> filter f l = filter g l.
Proof.
  intros H. induction l as [|a l IH]; simpl; [reflexivity|].
  now rewrite H, IH.
Qed.

Lemma filter_assign_profit (keep : Q -> bool) (rows : list Book) :
  filter (fun r => keep (snd r)) (assign_profit (Plain rows)) =
  assign_profit
    (Plain (filter (fun b => keep (price b - cost b)%Q) rows)).
Proof.
  unfold assign_profit. simpl.
  induction rows as [|b rows IH]; simpl; [reflexivity|].
  destruct (keep (price b - cost b)%Q); simpl; now rewrite IH.
Qed.

Lemma filter_all {A : Type} (f : A -> bool) (l : list A) :
  (forall a, f a = true) -> filter f l = l.
Proof.
  intros H. induction l as [|a l IH]; simpl; [reflexivity|].
  now rewrite H, IH.
Qed.

Lemma filter_filter {A : Type} (f g : A -> bool) (l : list A) :
  filter g (filter f l) = filter (fun a => f a && g a) l.
Proof.
  induction l as [|a l IH]; simpl; [reflexivity|].
  destruct (f a); simpl; [|exact IH].
  destruct (g a); now rewrite IH.
Qed.

Lemma records_assign_profit (df : DataFrame) :
  map fst (assign_profit df) = records df.
Proof.
  unfold assign_profit. rewrite map_map. simpl. apply map_id.
Qed.

Lemma str_contains_plain_text (search : string) (rows : list Book) :
  plain_text search = true ->
  str_contains_filter search (Plain rows) =
  Some (Returns
    (Plain (filter (fun b => contains_ignoring_case search (title b))
                   rows))).
Proof.
  intros Hp. unfold str_contains_filter.
  rewrite (re_compile_plain_text _ Hp). cbn [select_rows].
  do 3 f_equal. apply filter_ext_in_bool. intros b. apply search_literal.
Qed.

(** For a search text without special characters the filter returns,
    and keeps the records whose title contains the text, letter case
    ignored, and whose profit passes the mode. *)
Lemma apply_filters_plain_text (search : string) (m : profit_mode)
  (rows : list Book) :
  plain_text search = true ->
  exists out : DataFrame,
    apply_filters search m (Plain rows) = Some (Returns out)
    /\ records out = filter (keeps search m) rows.
Proof.
  intros Hp. unfold apply_filters.
  rewrite (str_contains_plain_text _ rows Hp).
  unfold keeps.
  destruct (truthy search); cbn [negb orb];
    destruct m; cbn [profit_condition];
    eexists; (split; [reflexivity|]);
    cbn [records];
    rewrite ?(filter_assign_profit (fun q => Qle_bool q 0)),
            ?(filter_assign_profit (fun q => Qlt_bool 0 q)),
            ?records_assign_profit;
    cbn [records]; rewrite ?filter_filter;
    first [ apply filter_ext_in_bool; intros b;
            rewrite ?andb_true_r; reflexivity
          | symmetry; apply filter_all; reflexivity ].
Qed.

Example positive_only_keeps_dune :
  apply_filters "" LucroPositivo (Plain three_books) =
  Some (Returns (WithProfit [(dune, 15%Q)])).
Proof. reflexivity. Qed.

Example non_positive_keeps_the_other_two :
  apply_filters "" LucroNegativoZero (Plain three_books) =
  Some (Returns (WithProfit [(foundation, 0%Q); (neuromancer, (-3)%Q)])).
Proof. reflexivity. Qed.

(** C7 fails on the code: the search text is compiled as a regular
    expression.  The text [.] keeps every book of the sample although
    no title contains a full stop, and the text [*] raises [re.error]
    where the claim promises an empty result. *)
Theorem search_text_is_a_regular_expression :
  apply_filters "." Todos (Plain three_books) =
    Some (Returns (Plain three_books))
  /\ filter (fun b => contains_ignoring_case "." (title b)) three_books = []
  /\ apply_filters "*" Todos (Plain three_books) = Some (Raises re_error)
  /\ filter (fun b => contains_ignoring_case "*" (title b)) three_books = [].
Proof.
  repeat split; reflexivity.
Qed.

End SearchBox.

Section FilteredShape.

Local Open Scope string_scope.

Lemma profit_of_filtered (keep : Book * Q -> bool) (df : DataFrame) :
  map snd (filter keep (assign_profit df)) =
  map (fun b => (price b - cost b)%Q)
      (map fst (filter keep (assign_profit df))).
Proof.
  unfold assign_profit.
  induction (records df) as [|b rows IH]; simpl; [reflexivity|].
  destruct (keep (b, (price b - cost b)%Q)); simpl; now rewrite ?IH.
Qed.

(** C10. For a snapshot as read from the store and a search text that
    is empty or compiles, the filter returns the records of the snapshot
    whose title the search finds and whose profit passes the mode, in
    their order; under "Lucro positivo" and "Lucro negativo/zero" the
    frame it returns has the columns of the snapshot and one more,
    [profit], holding price minus cost of each record kept, while under
    "Todos" it has the columns of the snapshot and no [profit]
    column. *)
Theorem filtered_shape_depends_on_mode (search : string)
  (m : profit_mode) (rows : list Book) :
  truthy search = false
  \/ (exists p : pattern, re_compile search = Some (Returns p)) ->
  exists (out : DataFrame) (p : pattern),
    apply_filters search m (Plain rows) = Some (Returns out)
    /\ re_compile search = Some (Returns p)
    /\ records out =
       filter (fun b => (negb (truthy search) || re_search p (title b))
                        && profit_condition m b) rows
    /\ match m with
       | Todos =>
           columns out = columns (Plain rows) /\ profit_column out = None
       | LucroPositivo | LucroNegativoZero =>
           columns out = (columns (Plain rows) ++ ["profit"])%list
           /\ profit_column out =
              Some (map (fun b => (price b - cost b)%Q) (records out))
       end.
Proof.
  intros H.
  assert (Hc : exists p : pattern, re_compile search = Some (Returns p)).
  { destruct H as [H | H]; [|exact H].
    destruct search; [eexists; reflexivity | discriminate]. }
  destruct Hc as [p Hp].
  unfold apply_filters, str_contains_filter. rewrite Hp.
  destruct (truthy search); cbn [negb orb select_rows];
    destruct m; cbn [profit_condition];
    eexists; exists p;
    (split; [reflexivity|]); (split; [reflexivity|]);
    (split;
     [ cbn [records];
       rewrite ?(filter_assign_profit (fun q => Qle_bool q 0)),
               ?(filter_assign_profit (fun q => Qlt_bool 0 q)),
               ?records_assign_profit;
       cbn [records]; rewrite ?filter_filter;
       first [ apply filter_ext_in_bool; intros b;
               rewrite ?andb_true_r; reflexivity
             | symmetry; apply filter_all; reflexivity ]
     | first [ now split
             | split; [reflexivity|]; cbn [profit_column records];
               f_equal; apply profit_of_filtered ] ]).
Qed.

Lemma filtered_shape_depends_on_mode_witness :
  exists (out : DataFrame) (p : pattern),
    apply_filters "dune" LucroPositivo (Plain three_books) =
    Some (Returns out)
    /\ re_compile "dune" = Some (Returns p)
    /\ records out =
       filter (fun b => (negb (truthy "dune") || re_search p (title b))
                        && profit_condition LucroPositivo b) three_books
    /\ columns out = (columns (Plain three_books) ++ ["profit"])%list
    /\ profit_column out =
       Some (map (fun b => (price b - cost b)%Q) (records out)).
Proof.
  apply (filtered_shape_depends_on_mode "dune" LucroPositivo three_books).
  right. eexists. reflexivity.
Defined.

(** The frame the filter returns for the sample under "Lucro positivo"
    and the search text [dune]: one record, with its profit. *)
Example dune_with_its_profit :
  apply_filters "dune" LucroPositivo (Plain three_books) =
  Some (Returns (WithProfit [(dune, 15%Q)])).
Proof. reflexivity. Qed.

End FilteredShape.

(** ** The CSV export *)

Section ExportFacts.

Local Open Scope string_scope.

Lemma string_app_assoc (a b c : string) : (a ++ b) ++ c = a ++ b ++ c.
Proof.
  induction a as [|x a IH]; simpl; [reflexivity | now rewrite IH].
Qed.

Lemma chars_app (a b : string) :
  list_ascii_of_string (a ++ b) =
  (list_ascii_of_string a ++ list_ascii_of_string b)%list.
Proof.
  induction a as [|x a IH]; simpl; [reflexivity | now rewrite IH].
Qed.

Lemma utf8_encode_app (a b : string) :
  utf8_encode (a ++ b) = (utf8_encode a ++ utf8_encode b)%list.
Proof.
  induction a as [|x a IH]; simpl; [reflexivity|].
  now rewrite IH, app_assoc.
Qed.

Lemma uint_digits (u : Decimal.uint) :
  all_digits (NilEmpty.string_of_uint u) = true.
Proof.
  unfold all_digits. induction u; simpl; auto.
Qed.

Lemma uint_nonempty (u : Decimal.uint) :
  NilZero.string_of_uint u <> "".
Proof.
  destruct u; simpl; discriminate.
Qed.

Lemma decimal_digits (n : Z) :
  all_digits (decimal n) = true /\ decimal n <> "".
Proof.
  unfold decimal. split; [|apply uint_nonempty].
  destruct (N.to_uint (Z.to_N n)) eqn:E; try (rewrite <- E; clear E);
    try reflexivity;
    unfold NilZero.string_of_uint;
    match goal with
    | |- all_digits match ?u with _ => _ end = true =>
        generalize (uint_digits u); destruct u; auto
    end.
Qed.

Lemma digit_is_digit (k : Z) :
  (0 <= k < 10)%Z -> is_digit (digit k) = true.
Proof.
  intros H.
  assert (E : (k = 0 \/ k = 1 \/ k = 2 \/ k = 3 \/ k = 4 \/ k = 5 \/ k = 6
               \/ k = 7 \/ k = 8 \/ k = 9)%Z) by lia.
  repeat (destruct E as [-> | E]; [reflexivity|]). now subst.
Qed.

Lemma digits_are_number_chars (s : string) :
  all_digits s = true ->
  forallb number_char (list_ascii_of_string s) = true.
Proof.
  unfold all_digits, number_char.
  induction (list_ascii_of_string s) as [|c l IH]; simpl; [reflexivity|].
  intros H. apply andb_prop in H. destruct H as [Hc Hl].
  now rewrite Hc, IH.
Qed.

Lemma format_2f_shape (x : Q) : two_decimals (format_2f x).
Proof.
  unfold format_2f.
  set (h := Z.abs (round_half_even (x * 100))).
  assert (Hf : (0 <= h mod 100 < 100)%Z) by (apply Z.mod_pos_bound; lia).
  exists (if Qlt_bool x 0 then "-" else ""), (decimal (h / 100)),
         (digit (h mod 100 / 10)), (digit ((h mod 100) mod 10)).
  destruct (decimal_digits (h / 100)) as [Hd Hn].
  repeat split; try assumption.
  - destruct (Qlt_bool x 0); auto.
  - apply digit_is_digit. split.
    + apply Z.div_pos; lia.
    + apply Z.div_lt_upper_bound; lia.
  - apply digit_is_digit. apply Z.mod_pos_bound. lia.
Qed.

Lemma format_2f_chars (x : Q) :
  forallb number_char (list_ascii_of_string (format_2f x)) = true.
Proof.
  destruct (format_2f_shape x)
    as (sign & ip & d1 & d2 & -> & Hs & _ & Hip & H1 & H2).
  rewrite !chars_app, !forallb_app. simpl.
  rewrite (digits_are_number_chars _ Hip).
  unfold number_char at 2 3. rewrite H1, H2.
  destruct Hs as [-> | ->]; reflexivity.
Qed.

Lemma str_int_chars (n : Z) :
  forallb number_char (list_ascii_of_string (str_int n)) = true.
Proof.
  unfold str_int. destruct (n <? 0)%Z.
  - rewrite chars_app, forallb_app. simpl.
    apply digits_are_number_chars, decimal_digits.
  - apply digits_are_number_chars, decimal_digits.
Qed.

Lemma number_char_plain (windows : bool) (c : ascii) :
  number_char c = true ->
  Ascii.eqb c "," || Ascii.eqb c quotechar
    || one_of (os_linesep windows) c = false.
Proof.
  destruct windows;
    destruct c as [[] [] [] [] [] [] [] []]; intros H;
    try discriminate H; reflexivity.
Qed.

Lemma number_unquoted (windows : bool) (s : string) :
  forallb number_char (list_ascii_of_string s) = true ->
  csv_field (os_linesep windows) s = s.
Proof.
  intros H. unfold csv_field, needs_quoting.
  assert (E : existsb
                (fun c => Ascii.eqb c "," || Ascii.eqb c quotechar
                          || one_of (os_linesep windows) c)
                (list_ascii_of_string s) = false).
  { induction (list_ascii_of_string s) as [|c l IH]; simpl; [reflexivity|].
    simpl in H. apply andb_prop in H. destruct H as [Hc Hl].
    now rewrite (number_char_plain windows c Hc), IH. }
  now rewrite E.
Qed.

Lemma header_line (windows : bool) (rows : list Book) :
  csv_line (os_linesep windows) (columns (Plain rows)) =
  "id,title,cost,price" ++ os_linesep windows.
Proof.
  destruct windows; reflexivity.
Qed.

Lemma book_line (windows : bool) (b : Book) :
  csv_line (os_linesep windows) (book_fields b) =
  str_int (id b) ++ "," ++ csv_field (os_linesep windows) (title b) ++ ","
  ++ format_2f (cost b) ++ "," ++ format_2f (price b)
  ++ os_linesep windows.
Proof.
  unfold csv_line, book_fields. cbn [map join].
  rewrite (number_unquoted windows _ (str_int_chars (id b))).
  rewrite (number_unquoted windows _ (format_2f_chars (cost b))).
  rewrite (number_unquoted windows _ (format_2f_chars (price b))).
  now rewrite !string_app_assoc.
Qed.

(** C2, as the code has it.  The export of a snapshot is the signature
    EF BB BF followed by the UTF-8 of a comma-delimited text: one
    header line with the four column names [id], [title], [cost] and
    [price], then one line per record with the id, the title, the cost
    and the price; cost and price are written in fixed notation with
    two decimals.  The bytes are a function of the snapshot and of the
    line terminator of the platform. *)
Theorem export_format (windows : bool) (rows : list Book) :
  to_csv_bytes (os_linesep windows) (Plain rows) =
    List.app BOM
      (utf8_encode
         ("id,title,cost,price" ++ os_linesep windows ++
          concat ""
            (map (fun b =>
                    str_int (id b) ++ ","
                    ++ csv_field (os_linesep windows) (title b) ++ ","
                    ++ format_2f (cost b) ++ "," ++ format_2f (price b)
                    ++ os_linesep windows) rows)))
  /\ header_row (to_csv_bytes (os_linesep windows) (Plain rows)) =
     ["id"; "title"; "cost"; "price"]
  /\ (forall x : Q, two_decimals (format_2f x)).
Proof.
  assert (E : to_csv (os_linesep windows) (Plain rows) =
              "id,title,cost,price" ++ os_linesep windows ++
              concat ""
                (map (fun b =>
                        str_int (id b) ++ ","
                        ++ csv_field (os_linesep windows) (title b) ++ ","
                        ++ format_2f (cost b) ++ "," ++ format_2f (price b)
                        ++ os_linesep windows) rows)).
  { unfold to_csv. rewrite header_line, string_app_assoc.
    cbn [row_fields]. rewrite map_map. do 3 f_equal.
    apply map_ext. intros b. apply book_line. }
  unfold to_csv_bytes, encode_utf8_sig. rewrite E.
  split; [reflexivity|]. split; [|exact format_2f_shape].
  destruct windows; reflexivity.
Qed.

Lemma export_csv_of_store (windows : bool) (db : DB) :
  consistent db -> books db <> [] ->
  export_csv (os_linesep windows) db =
  Some (to_csv_bytes (os_linesep windows) (Plain (books db))).
Proof.
  intros Hc Hne. unfold export_csv. rewrite (fetch_consistent _ Hc).
  destruct (books db); [contradiction | reflexivity].
Qed.

Example export_of_three_books :
  to_csv LF (Plain three_books) =
  "id,title,cost,price" ++ LF ++ "1,Dune,10.00,25.00" ++ LF
  ++ "2,Foundation,8.00,8.00" ++ LF ++ "3,Neuromancer,12.00,9.00" ++ LF.
Proof. reflexivity. Qed.

(** C2 does not hold as stated in one respect: the header of the export
    has the four column names of the table, not the six names
    Display Index, ID, Title, Cost, Price, Profit. *)
Lemma export_header_is_not_six_columns :
  header_row (to_csv_bytes LF (Plain three_books)) =
    ["id"; "title"; "cost"; "price"]
  /\ header_row (to_csv_bytes LF (Plain three_books)) <> six_column_names.
Proof.
  split; [reflexivity | discriminate].
Qed.

End ExportFacts.

(* ================================================================== *)
(** * Further properties of the code *)
(* ================================================================== *)

(** ** The record store, continued *)

Section StoreMore.

Local Open Scope Z_scope.

Lemma insert_by_id_perm (b : Book) (rows : list Book) :
  Permutation (b :: rows) (insert_by_id b rows).
Proof.
  induction rows as [|r rows IH]; simpl; [reflexivity|].
  destruct (id b <=? id r); [reflexivity|].
  rewrite perm_swap. now constructor.
Qed.

Lemma insert_by_id_sorted (b : Book) (rows : list Book) :
  StronglySorted by_id rows -> StronglySorted by_id (insert_by_id b rows).
Proof.
  induction rows as [|r rows IH]; simpl; intros Hs.
  - repeat constructor.
  - inversion Hs as [|? ? Hs' Hf]; subst.
    destruct (Z.leb_spec (id b) (id r)).
    + constructor; [assumption|]. constructor; [assumption|].
      eapply Forall_impl; [|exact Hf]. unfold by_id. intros; lia.
    + constructor; [now apply IH|].
      eapply Permutation_Forall; [apply insert_by_id_perm|].
      constructor; [unfold by_id; lia | assumption].
Qed.

(** X1. Whatever rows the table holds, the listing returns all of them,
    each once, in ascending order of id. *)
Theorem fetch_books_df_ordered (db : DB) :
  Permutation (books db) (fetch_books_df db)
  /\ StronglySorted by_id (fetch_books_df db).
Proof.
  unfold fetch_books_df, order_by_id.
  induction (books db) as [|b rows [IHp IHs]]; simpl.
  - split; constructor.
  - split.
    + rewrite <- insert_by_id_perm. now constructor.
    + now apply insert_by_id_sorted.
Qed.

(** X2. After any history of adds, updates and deletes on a fresh
    store the listing is the table as it stands, the ids of the live
    records are strictly increasing and lie between 1 and the id
    counter. *)
Theorem reachable_store_is_consistent (ops : list op) :
  fetch_books_df (run ops (init_db None)) = books (run ops (init_db None))
  /\ StronglySorted Z.lt (ids (run ops (init_db None)))
  /\ Forall (fun i => 1 <= i <= sqlite_sequence (run ops (init_db None)))
            (ids (run ops (init_db None))).
Proof.
  change (init_db None) with empty_db.
  pose proof (consistent_run ops empty_db consistent_empty) as Hc.
  split; [now apply fetch_consistent|].
  destruct Hc as (Hs & Hf & _). split; [exact Hs|].
  eapply Forall_impl; [|exact Hf]. simpl; intros; lia.
Qed.

Lemma assigned_ids_step (o : op) (ops : list op) (db : DB) :
  consistent db ->
  (assigned_ids (o :: ops) db =
     (sqlite_sequence db + 1) :: assigned_ids ops (snd (exec o db))
   /\ sqlite_sequence (snd (exec o db)) = sqlite_sequence db + 1)
  \/ (assigned_ids (o :: ops) db = assigned_ids ops (snd (exec o db))
      /\ sqlite_sequence (snd (exec o db)) = sqlite_sequence db).
Proof.
  intros Hc. destruct o; cbn [assigned_ids exec].
  - destruct (Z_lt_le_dec (sqlite_sequence db) MAX_ROWID) as [Hlt | Hge].
    + left. rewrite (add_book_db_spec _ _ _ _ Hc Hlt). split; reflexivity.
    + right. rewrite (add_book_db_full _ _ _ _ Hc Hge). split; reflexivity.
  - right. split; reflexivity.
  - right. split; reflexivity.
Qed.

Lemma assigned_ids_consecutive (ops : list op) (db : DB) :
  consistent db ->
  assigned_ids ops db =
    map (fun k => sqlite_sequence db + Z.of_nat k)
        (seq 1 (List.length (assigned_ids ops db)))
  /\ sqlite_sequence (run ops db) =
     sqlite_sequence db + Z.of_nat (List.length (assigned_ids ops db)).
Proof.
  revert db. induction ops as [|o ops IH]; intros db Hc.
  - simpl. split; [reflexivity | lia].
  - pose proof (consistent_exec o db Hc) as Hc'.
    destruct (IH _ Hc') as [Hl Hr]. cbn [run].
    destruct (assigned_ids_step o ops db Hc) as [[Ha Hs] | [Ha Hs]];
      rewrite Ha; rewrite Hs in Hl, Hr.
    + cbn [List.length].
      remember (List.length (assigned_ids ops (snd (exec o db)))) as n eqn:Hn.
      cbn [seq map]. split.
      * f_equal; try lia. rewrite Hl.
        rewrite <- (seq_shift n 1), map_map. apply map_ext. intros k. lia.
      * rewrite Hr. lia.
    + split; assumption.
Qed.

(** X3. The ids handed out on a fresh store are 1, 2, 3, ... in this
    order, whatever updates and deletes come in between, and the id
    counter is the number of adds that succeeded. *)
Theorem ids_are_handed_out_consecutively (ops : list op) :
  assigned_ids ops (init_db None) =
    map Z.of_nat (seq 1 (List.length (assigned_ids ops (init_db None))))
  /\ sqlite_sequence (run ops (init_db None)) =
     Z.of_nat (List.length (assigned_ids ops (init_db None))).
Proof.
  change (init_db None) with empty_db.
  destruct (assigned_ids_consecutive ops empty_db consistent_empty)
    as [Hl Hr].
  split; [|rewrite Hr; reflexivity].
  rewrite Hl at 1. apply map_ext. intros k. reflexivity.
Qed.

(** X4. Deleting an id that is in the store, whose ids are pairwise
    different, removes the one record with that id; every other record
    keeps its place and the id counter is not touched. *)
Theorem delete_removes_only_that_record (db : DB) (book_id : Z) :
  NoDup (ids db) -> In book_id (ids db) ->
  exists (before : list Book) (old : Book) (after : list Book),
    books db = (before ++ old :: after)%list
    /\ id old = book_id
    /\ delete_book_db book_id db =
       (Returns tt, mkDB (before ++ after)%list (sqlite_sequence db)).
Proof.
  intros Hnd Hin. unfold ids in *.
  destruct (split_at_id _ _ Hin) as (before & old & after & Hrows & Hid).
  exists before, old, after. split; [exact Hrows|]. split; [exact Hid|].
  unfold delete_book_db. rewrite Hrows in *.
  rewrite map_app in Hnd. simpl in Hnd.
  apply NoDup_remove_2 in Hnd. rewrite Hid in Hnd.
  rewrite filter_app. simpl. rewrite Hid, Z.eqb_refl. simpl.
  rewrite (delete_other book_id before)
    by (intros H; apply Hnd; apply in_or_app; now left).
  rewrite (delete_other book_id after)
    by (intros H; apply Hnd; apply in_or_app; now right).
  reflexivity.
Qed.

Lemma delete_removes_only_that_record_witness :
  exists (before : list Book) (old : Book) (after : list Book),
    books sample_db = (before ++ old :: after)%list
    /\ id old = 2
    /\ delete_book_db 2 sample_db =
       (Returns tt, mkDB (before ++ after)%list (sqlite_sequence sample_db)).
Proof.
  apply (delete_removes_only_that_record sample_db 2).
  - apply primary_key_holds, consistent_sample.
  - simpl. tauto.
Defined.

(** X5. Adding a book and deleting it again gives back the rows there
    were, but not the id: the counter stays advanced and the next add
    gets the id after the deleted one. *)
Theorem add_then_delete_keeps_the_counter (title title' : string)
  (cost price cost' price' : Q) (db : DB) :
  consistent db -> sqlite_sequence db + 1 < MAX_ROWID ->
  exists db1 : DB,
    add_book_db title cost price db = (Returns tt, db1)
    /\ delete_book_db (sqlite_sequence db + 1) db1 =
       (Returns tt, mkDB (books db) (sqlite_sequence db + 1))
    /\ add_book_db title' cost' price'
         (snd (delete_book_db (sqlite_sequence db + 1) db1)) =
       (Returns tt,
        mkDB (books db
                ++ [mkBook (sqlite_sequence db + 2) title' cost' price'])%list
             (sqlite_sequence db + 2)).
Proof.
  intros Hc Hlt.
  assert (Hlt' : sqlite_sequence db < MAX_ROWID) by lia.
  eexists. split; [apply (add_book_db_spec _ _ _ _ Hc Hlt')|].
  assert (Hdel : delete_book_db (sqlite_sequence db + 1)
                   {| books := (books db ++
                        [mkBook (sqlite_sequence db + 1) title cost price])%list;
                      sqlite_sequence := sqlite_sequence db + 1 |} =
                 (Returns tt, mkDB (books db) (sqlite_sequence db + 1))).
  { unfold delete_book_db. cbn [books sqlite_sequence].
    rewrite filter_app. simpl. rewrite Z.eqb_refl. simpl.
    rewrite app_nil_r, delete_other; [reflexivity|].
    destruct Hc as (_ & Hle & _). intros Hin.
    rewrite Forall_forall in Hle. specialize (Hle _ Hin). simpl in Hle. lia. }
  split; [exact Hdel|]. rewrite Hdel. cbn [snd].
  assert (Hc1 : consistent (mkDB (books db) (sqlite_sequence db + 1))).
  { destruct Hc as (Hs & Hle & Hpos). unfold consistent, ids in *.
    cbn [books sqlite_sequence]. split; [exact Hs|]. split; [|lia].
    eapply Forall_impl; [|exact Hle]. simpl; intros; lia. }
  rewrite (add_book_db_spec _ _ _ _ Hc1) by (simpl; lia).
  cbn [books sqlite_sequence].
  replace (sqlite_sequence db + 1 + 1) with (sqlite_sequence db + 2) by lia.
  reflexivity.
Qed.

Lemma add_then_delete_keeps_the_counter_witness :
  exists db1 : DB,
    add_book_db "Solaris" 7 11 sample_db = (Returns tt, db1)
    /\ delete_book_db (sqlite_sequence sample_db + 1) db1 =
       (Returns tt, mkDB (books sample_db) (sqlite_sequence sample_db + 1))
    /\ add_book_db "Emma" 3 4
         (snd (delete_book_db (sqlite_sequence sample_db + 1) db1)) =
       (Returns tt,
        mkDB (books sample_db
                ++ [mkBook (sqlite_sequence sample_db + 2) "Emma" 3 4])%list
             (sqlite_sequence sample_db + 2)).
Proof.
  apply (add_then_delete_keeps_the_counter "Solaris" "Emma" 7 11 3 4
           sample_db).
  - exact consistent_sample.
  - reflexivity.
Defined.

(** X6. Of two updates of the same id the later one wins: the store
    ends as if only the later update had been made. *)
Theorem last_update_wins (book_id : Z) (t1 t2 : string)
  (c1 p1 c2 p2 : Q) (db : DB) :
  update_book_db book_id t2 c2 p2
    (snd (update_book_db book_id t1 c1 p1 db)) =
  update_book_db book_id t2 c2 p2 db.
Proof.
  unfold update_book_db. cbn [snd books sqlite_sequence].
  rewrite map_map. do 2 f_equal. apply map_ext. intros b.
  unfold update_row. destruct (Z.eqb_spec (id b) book_id) as [E | E]; simpl.
  - rewrite E, Z.eqb_refl. reflexivity.
  - destruct (Z.eqb_spec (id b) book_id); [contradiction | reflexivity].
Qed.

End StoreMore.

(** ** The view filter, continued *)

Section FilterMore.

Local Open Scope string_scope.

(** X7. For every search text that compiles, plain or not, the two
    filters compose by conjunction: the filter returns, and the records
    it keeps are those of the snapshot, in their order, whose title the
    pattern finds a match in and whose profit passes the mode. *)
Theorem filters_compose_by_conjunction (search : string) (p : pattern)
  (m : profit_mode) (rows : list Book) :
  re_compile search = Some (Returns p) ->
  exists out : DataFrame,
    apply_filters search m (Plain rows) = Some (Returns out)
    /\ records out =
       filter (fun b => (negb (truthy search) || re_search p (title b))
                        && profit_condition m b) rows.
Proof.
  intros Hp. unfold apply_filters, str_contains_filter. rewrite Hp.
  destruct (truthy search); cbn [negb orb select_rows];
    destruct m; cbn [profit_condition];
    eexists; (split; [reflexivity|]);
    cbn [records];
    rewrite ?(filter_assign_profit (fun q => Qle_bool q 0)),
            ?(filter_assign_profit (fun q => Qlt_bool 0 q)),
            ?records_assign_profit;
    cbn [records]; rewrite ?filter_filter;
    first [ apply filter_ext_in_bool; intros b;
            rewrite ?andb_true_r; reflexivity
          | symmetry; apply filter_all; reflexivity ].
Qed.

Lemma filters_compose_by_conjunction_witness :
  exists out : DataFrame,
    apply_filters "d.ne|man" LucroNegativoZero (Plain three_books) =
      Some (Returns out)
    /\ records out =
       filter (fun b =>
                 (negb (truthy "d.ne|man")
                  || re_search
                       [[(ALit "d"%char, QOne); (AAny, QOne);
                         (ALit "n"%char, QOne); (ALit "e"%char, QOne)];
                        [(ALit "m"%char, QOne); (ALit "a"%char, QOne);
                         (ALit "n"%char, QOne)]] (title b))
                 && profit_condition LucroNegativoZero b) three_books.
Proof.
  apply (filters_compose_by_conjunction "d.ne|man"
           [[(ALit "d"%char, QOne); (AAny, QOne);
             (ALit "n"%char, QOne); (ALit "e"%char, QOne)];
            [(ALit "m"%char, QOne); (ALit "a"%char, QOne);
             (ALit "n"%char, QOne)]]
           LucroNegativoZero three_books).
  reflexivity.
Defined.

Example regular_expression_search :
  apply_filters "d.ne|man" LucroNegativoZero (Plain three_books) =
  Some (Returns (WithProfit [(neuromancer, (-3)%Q)])).
Proof. reflexivity. Qed.

Lemma filter_partition_perm {A : Type} (f : A -> bool) (l : list A) :
  Permutation (filter f l ++ filter (fun a => negb (f a)) l) l.
Proof.
  induction l as [|a l IH]; simpl; [constructor|].
  destruct (f a); simpl.
  - now constructor.
  - rewrite <- Permutation_middle. now constructor.
Qed.

(** X8. The two profit modes split what the search keeps: for a search
    text that compiles, every record kept under "Todos" is kept under
    exactly one of "Lucro positivo" and "Lucro negativo/zero". *)
Theorem profit_modes_split_the_snapshot (search : string) (p : pattern)
  (rows : list Book) :
  re_compile search = Some (Returns p) ->
  exists pos neg all : DataFrame,
    apply_filters search LucroPositivo (Plain rows) = Some (Returns pos)
    /\ apply_filters search LucroNegativoZero (Plain rows) =
       Some (Returns neg)
    /\ apply_filters search Todos (Plain rows) = Some (Returns all)
    /\ Permutation (records pos ++ records neg) (records all)
    /\ (forall b, In b (records pos) -> ~ In b (records neg)).
Proof.
  intros Hp.
  destruct (filters_compose_by_conjunction search p LucroPositivo rows Hp)
    as (pos & Hpos & Rpos).
  destruct (filters_compose_by_conjunction search p LucroNegativoZero rows Hp)
    as (neg & Hneg & Rneg).
  destruct (filters_compose_by_conjunction search p Todos rows Hp)
    as (all & Hall & Rall).
  exists pos, neg, all. repeat (split; [assumption|]).
  rewrite Rpos, Rneg, Rall. cbn [profit_condition]. split.
  - set (s := fun b : Book => negb (truthy search) || re_search p (title b)).
    set (g := fun b : Book => Qlt_bool 0 (price b - cost b)).
    rewrite (filter_ext_in_bool (fun b => s b && true) s)
      by (intros; apply andb_true_r).
    rewrite <- (filter_filter s g).
    rewrite (filter_ext_in_bool
               (fun b => s b && Qle_bool (price b - cost b) 0)
               (fun b => s b && negb (g b))).
    + rewrite <- (filter_filter s (fun b => negb (g b))).
      apply filter_partition_perm.
    + intros b. unfold g, Qlt_bool. now rewrite negb_involutive.
  - intros b Hb Hn. apply filter_In in Hb, Hn.
    destruct Hb as [_ Hb], Hn as [_ Hn].
    apply andb_prop in Hb, Hn. destruct Hb as [_ Hb], Hn as [_ Hn].
    unfold Qlt_bool in Hb. rewrite Hn in Hb. discriminate.
Qed.

Lemma profit_modes_split_the_snapshot_witness :
  exists pos neg all : DataFrame,
    apply_filters "o" LucroPositivo (Plain three_books) = Some (Returns pos)
    /\ apply_filters "o" LucroNegativoZero (Plain three_books) =
       Some (Returns neg)
    /\ apply_filters "o" Todos (Plain three_books) = Some (Returns all)
    /\ Permutation (records pos ++ records neg) (records all)
    /\ (forall b, In b (records pos) -> ~ In b (records neg)).
Proof.
  apply (profit_modes_split_the_snapshot "o" [[(ALit "o"%char, QOne)]]
           three_books).
  reflexivity.
Defined.

End FilterMore.

(** ** The table, the choice of a book and the sections below it *)

Section PageFacts.

Local Open Scope string_scope.

Lemma nth_error_numbered {A B : Type} (f : nat -> A -> B) (l : list A)
  (i k : nat) (a : A) :
  nth_error l k = Some a ->
  nth_error (map (fun ia : nat * A => let (j, x) := ia in f j x)
                 (combine (seq i (List.length l)) l)) k
  = Some (f (i + k)%nat a).
Proof.
  revert i k. induction l as [|x l IH]; intros i k H.
  - destruct k; discriminate.
  - destruct k as [|k]; simpl in *.
    + injection H as <-. now rewrite Nat.add_0_r.
    + rewrite (IH (S i) k H). f_equal. f_equal. lia.
Qed.

(** X9. The table has one row per record of the frame, in the order of
    the frame; the row at position k carries the display index k + 1,
    whatever the id of its record, the fields of the record and price
    minus cost as its profit.  This holds for a frame with a column
    [profit] as well: the column is not shown. *)
Theorem display_rows_are_numbered (df : DataFrame) :
  List.length (df_with_index_for_display df) = List.length (records df)
  /\ forall (k : nat) (b : Book),
       nth_error (records df) k = Some b ->
       nth_error (df_with_index_for_display df) k =
       Some (mkDisplayRow (S k) (id b) (title b) (cost b) (price b)
                          (price b - cost b)%Q).
Proof.
  unfold df_with_index_for_display. split.
  - rewrite length_map, length_combine, length_seq. apply Nat.min_id.
  - intros k b H.
    apply (nth_error_numbered
             (fun i b => mkDisplayRow i (id b) (title b) (cost b) (price b)
                                      (price b - cost b)%Q)
             (records df) 1 k b H).
Qed.

(** X10. When the filter has added a column [profit], the profit shown
    in the table is that column. *)
Theorem table_profit_is_the_filter_profit (search : string)
  (m : profit_mode) (rows : list Book) (out : DataFrame) (ps : list Q) :
  apply_filters search m (Plain rows) = Some (Returns out) ->
  profit_column out = Some ps ->
  map Lucro (df_with_index_for_display out) = ps.
Proof.
  intros Hout Hps.
  assert (Hl : map Lucro (df_with_index_for_display out) =
               map (fun b => (price b - cost b)%Q) (records out)).
  { unfold df_with_index_for_display.
    generalize 1%nat. induction (records out) as [|b l IH]; intros i.
    - reflexivity.
    - simpl. now rewrite IH. }
  rewrite Hl. clear Hl.
  unfold apply_filters, str_contains_filter in Hout.
  assert (Hd : exists df2 : DataFrame,
             profit_column df2 = None
             /\ match m with
                | Todos => Some (Returns df2)
                | LucroPositivo =>
                    Some (Returns
                            (WithProfit
                               (filter (fun r => Qlt_bool 0 (snd r))
                                       (assign_profit df2))))
                | LucroNegativoZero =>
                    Some (Returns
                            (WithProfit
                               (filter (fun r => Qle_bool (snd r) 0)
                                       (assign_profit df2))))
                end = Some (Returns out)).
  { destruct (truthy search).
    - destruct (re_compile search) as [[p | e] |]; try discriminate.
      eexists. split; [|exact Hout]. reflexivity.
    - eexists. split; [|exact Hout]. reflexivity. }
  destruct Hd as (df2 & Hn & Hm).
  destruct m; injection Hm as <-; cbn [profit_column records] in *.
  - congruence.
  - injection Hps as <-. symmetry. apply profit_of_filtered.
  - injection Hps as <-. symmetry. apply profit_of_filtered.
Qed.

Lemma table_profit_is_the_filter_profit_witness :
  map Lucro
      (df_with_index_for_display
         (WithProfit [(foundation, 0%Q); (neuromancer, (-3)%Q)]))
  = [0%Q; (-3)%Q].
Proof.
  apply (table_profit_is_the_filter_profit "" LucroNegativoZero three_books
           (WithProfit [(foundation, 0%Q); (neuromancer, (-3)%Q)])
           [0%Q; (-3)%Q]); reflexivity.
Defined.

End PageFacts.

Section SelectionFacts.

Local Open Scope string_scope.

Variable dash : ascii.
Hypothesis dash_is_no_digit : is_digit dash = false.

Lemma digits_prefix_unique (d1 d2 x y : string) :
  all_digits d1 = true -> all_digits d2 = true ->
  d1 ++ String " " x = d2 ++ String " " y -> d1 = d2.
Proof.
  unfold all_digits. revert d2.
  induction d1 as [|c d1 IH]; intros [|c2 d2] H1 H2 E; simpl in *.
  - reflexivity.
  - injection E as Ec _. subst c2.
    apply andb_prop in H2. destruct H2 as [H2 _]. discriminate H2.
  - injection E as Ec _. subst c.
    apply andb_prop in H1. destruct H1 as [H1 _]. discriminate H1.
  - injection E as Ec Et. subst c2.
    apply andb_prop in H1, H2. destruct H1 as [_ H1], H2 as [_ H2].
    f_equal. now apply IH.
Qed.

Lemma to_uint_not_nil (n : N) : N.to_uint n <> Decimal.Nil.
Proof.
  destruct n; simpl; [discriminate|].
  apply DecimalPos.Unsigned.to_uint_nonnil.
Qed.

Lemma decimal_of_nat_inj (i j : nat) :
  decimal (Z.of_nat i) = decimal (Z.of_nat j) -> i = j.
Proof.
  unfold decimal. intros E.
  apply (f_equal NilZero.uint_of_string) in E.
  rewrite !NilZero.usu in E by apply to_uint_not_nil.
  injection E as E. apply DecimalN.Unsigned.to_uint_inj in E.
  lia.
Qed.

Lemma choice_str_index (i j : nat) (b b' : Book) :
  choice_str dash i b = choice_str dash j b' -> i = j.
Proof.
  unfold choice_str. intros E. apply decimal_of_nat_inj.
  eapply digits_prefix_unique; [| |exact E]; apply decimal_digits.
Qed.

Lemma choice_is_not_nenhum (i : nat) (b : Book) :
  String.eqb (choice_str dash i b) (nenhum dash) = false.
Proof.
  apply String.eqb_neq. unfold choice_str, nenhum. intros E.
  destruct (decimal_digits (Z.of_nat i)) as [Hd Hn].
  destruct (decimal (Z.of_nat i)) as [|c d]; [contradiction|].
  simpl in E. injection E as Ec _. subst c.
  unfold all_digits in Hd. simpl in Hd.
  rewrite dash_is_no_digit in Hd. discriminate.
Qed.

Lemma index_of_choice (mapping : list Book) (i k : nat) (b : Book) :
  nth_error mapping k = Some b ->
  index (choice_str dash (i + k) b)
        (map (fun ib : nat * Book => let (j, x) := ib in choice_str dash j x)
             (combine (seq i (List.length mapping)) mapping))
  = Some k.
Proof.
  revert i k. induction mapping as [|x l IH]; intros i k H.
  - destruct k; discriminate.
  - destruct k as [|k]; simpl in *.
    + injection H as <-. now rewrite Nat.add_0_r, String.eqb_refl.
    + destruct (String.eqb_spec (choice_str dash i x)
                                (choice_str dash (i + S k) b)) as [E | _].
      * apply choice_str_index in E. lia.
      * replace (i + S k)%nat with (S i + k)%nat by lia.
        now rewrite (IH (S i) k H).
Qed.

(** X11. The choice shown for the record at position k of the filtered
    frame is its display index k + 1, the dash, its title and its
    price; picking it binds [selected_book_id] to the id of that very
    record, also when other records have the same title and price. *)
Theorem choice_selects_its_book (df_filtered : DataFrame) (k : nat)
  (b : Book) :
  nth_error (records df_filtered) k = Some b ->
  nth_error (choice_strs dash (records df_filtered)) k =
    Some (choice_str dash (S k) b)
  /\ quick_actions dash df_filtered (choice_str dash (S k) b) =
     Ok (Bound (Some (id b))).
Proof.
  intros H. split.
  - apply (nth_error_numbered (choice_str dash) _ 1 k b H).
  - unfold quick_actions.
    destruct (records df_filtered) as [|x l] eqn:Er;
      [destruct k; discriminate|].
    cbn [is_empty]. rewrite choice_is_not_nenhum.
    unfold choice_strs.
    pose proof (index_of_choice (x :: l) 1 k b H) as Hi.
    change (1 + k)%nat with (S k) in Hi. rewrite Hi. now rewrite H.
Qed.

Lemma sel_row_finds (df : list Book) (b : Book) :
  NoDup (map id df) -> In b df -> sel_row df (id b) = Ok b.
Proof.
  unfold sel_row. induction df as [|x df IH]; intros Hnd Hin.
  - contradiction.
  - inversion Hnd as [|? ? Hx Hnd']; subst. simpl.
    destruct Hin as [-> | Hin].
    + now rewrite Z.eqb_refl.
    + destruct (Z.eqb_spec (id x) (id b)) as [E | _].
      * exfalso. apply Hx. rewrite E. now apply in_map.
      * now apply IH.
Qed.

(** X12. With pairwise different ids in the snapshot, once a record of
    the filtered frame has been picked the edit form loads that record
    from the unfiltered snapshot, and the delete section shows its
    button: no lookup fails. *)
Theorem edit_form_loads_the_selected_row (search : string)
  (m : profit_mode) (df : list Book) (df_filtered : DataFrame)
  (k : nat) (b : Book) :
  NoDup (map id df) ->
  apply_filters search m (Plain df) = Some (Returns df_filtered) ->
  nth_error (records df_filtered) k = Some b ->
  render dash EditarLivroExistente df df_filtered (choice_str dash (S k) b)
  = Ok (Some b, true).
Proof.
  intros Hnd Hf Hk.
  assert (Hin : In b df).
  { apply nth_error_In in Hk.
    unfold apply_filters, str_contains_filter in Hf.
    assert (Hsub : forall x, In x (records df_filtered) -> In x df).
    { destruct (truthy search).
      - destruct (re_compile search) as [[p | e] |]; try discriminate.
        destruct m; injection Hf as <-; cbn [records select_rows];
          intros x Hx;
          rewrite ?in_map_iff in Hx;
          try (destruct Hx as ([y q] & <- & Hx); simpl);
          repeat (apply filter_In in Hx; destruct Hx as [Hx _]);
          try (unfold assign_profit in Hx; apply in_map_iff in Hx;
               destruct Hx as (z & [= <- _] & Hx); cbn [records] in Hx;
               apply filter_In in Hx; destruct Hx as [Hx _]);
          assumption.
      - destruct m; injection Hf as <-; cbn [records];
          intros x Hx;
          rewrite ?in_map_iff in Hx;
          try (destruct Hx as ([y q] & <- & Hx); simpl);
          repeat (apply filter_In in Hx; destruct Hx as [Hx _]);
          try (unfold assign_profit in Hx; apply in_map_iff in Hx;
               destruct Hx as (z & [= <- _] & Hx); cbn [records] in Hx);
          assumption. }
    now apply Hsub. }
  unfold render.
  destruct (choice_selects_its_book df_filtered k b Hk) as [_ Hq].
  rewrite Hq. cbn [form_area read_selected delete_section].
  now rewrite (sel_row_finds df b Hnd Hin).
Qed.

(** X13. The run of the script raises [NameError] exactly when the
    filtered frame has no rows, in either form mode and whatever is
    chosen: [selected_book_id] is bound only by the branch that lists
    the choices, and the delete section reads it in every run. *)
Theorem empty_frame_raises_NameError (mode : form_mode) (df : list Book)
  (df_filtered : DataFrame) (selected_choice : string) :
  render dash mode df df_filtered selected_choice = Err NameError
  <-> records df_filtered = [].
Proof.
  unfold render, quick_actions. split.
  - destruct (records df_filtered) as [|x l]; [reflexivity|].
    cbn [is_empty].
    destruct (String.eqb selected_choice (nenhum dash)).
    + destruct mode; discriminate.
    + destruct (index selected_choice (choice_strs dash (x :: l)));
        [|discriminate].
      destruct (nth_error (x :: l) n); [|discriminate].
      cbn [delete_section read_selected].
      destruct mode; cbn [form_area read_selected]; [discriminate|].
      unfold sel_row.
      destruct (filter (fun b0 => (id b0 =? id b)%Z) df); discriminate.
  - intros ->. cbn [is_empty]. destruct mode; reflexivity.
Qed.

End SelectionFacts.

Lemma choice_selects_its_book_witness :
  nth_error (choice_strs "-" (records (Plain three_books))) 1 =
    Some (choice_str "-" 2 foundation)
  /\ quick_actions "-" (Plain three_books) (choice_str "-" 2 foundation) =
     Ok (Bound (Some (id foundation))).
Proof.
  apply (choice_selects_its_book "-" eq_refl (Plain three_books) 1 foundation).
  reflexivity.
Defined.

Lemma edit_form_loads_the_selected_row_witness :
  render "-" EditarLivroExistente three_books
         (WithProfit [(foundation, 0%Q); (neuromancer, (-3)%Q)])
         (choice_str "-" 2 neuromancer)
  = Ok (Some neuromancer, true).
Proof.
  apply (edit_form_loads_the_selected_row "-" eq_refl "" LucroNegativoZero
           three_books (WithProfit [(foundation, 0%Q); (neuromancer, (-3)%Q)])
           1 neuromancer).
  - apply (primary_key_holds sample_db consistent_sample).
  - reflexivity.
  - reflexivity.
Defined.

Example fresh_store_raises_NameError :
  render "-" AdicionarLivro (fetch_books_df (init_db None))
         (Plain (fetch_books_df (init_db None))) (nenhum "-")
  = Err NameError.
Proof. reflexivity. Qed.

(** ** The charts, continued *)

Section ChartFacts.

Local Open Scope Q_scope.

Lemma Qsum_nonneg (l : list Q) : Forall (fun v => 0 <= v) l -> 0 <= Qsum l.
Proof.
  induction 1 as [|x l Hx _ IH].
  - apply Qle_refl.
  - rewrite Qsum_cons. replace 0 with (0 + 0) by reflexivity.
    now apply Qplus_le_compat.
Qed.

Lemma abs_profit_nonneg (df : list Book) :
  Forall (fun v => 0 <= v) (map snd (abs_profit df)).
Proof.
  unfold abs_profit. rewrite map_map.
  apply Forall_forall. intros v Hv. apply in_map_iff in Hv.
  destruct Hv as (b & <- & _). exact (Qabs_nonneg _).
Qed.

(** X14. Whatever the sort kind, the pie chart of a non-empty snapshot
    has as many labels as values, one for each record up to eight
    records and nine for any larger snapshot, and no value is
    negative. *)
Theorem pie_chart_has_at_most_nine_entries
  (sort_values : list entry -> list entry) (df : list Book) :
  sorts_descending sort_values -> df <> [] ->
  exists (labels : list string) (vals : list Q),
    profit_distribution sort_values df = Some (labels, vals)
    /\ List.length labels = List.length vals
    /\ List.length vals = Nat.min (List.length df) 9
    /\ Forall (fun v => 0 <= v) vals.
Proof.
  intros Hsort Hne.
  destruct (Hsort (abs_profit df)) as [Hp _].
  assert (Hl : List.length (sort_values (abs_profit df)) = List.length df).
  { rewrite <- (Permutation_length Hp). unfold abs_profit.
    apply length_map. }
  assert (Hnn : Forall (fun v => 0 <= v)
                  (map snd (sort_values (abs_profit df)))).
  { eapply Permutation_Forall; [apply Permutation_map; exact Hp|].
    apply abs_profit_nonneg. }
  unfold profit_distribution.
  destruct df as [|b0 df]; [contradiction|]. cbn [is_empty].
  set (prof := sort_values (abs_profit (b0 :: df))) in *.
  rewrite <- (firstn_skipn 8 prof), map_app in Hnn.
  apply Forall_app in Hnn. destruct Hnn as [Hn1 Hn2].
  destruct (Nat.ltb_spec 8 (List.length prof)) as [H8 | H8].
  - eexists; eexists. split; [reflexivity|].
    rewrite !length_app, !length_map, length_firstn.
    cbn [List.length] in *.
    split; [reflexivity|]. split; [unfold entry in *; lia|].
    apply Forall_app. split; [exact Hn1|].
    constructor; [now apply Qsum_nonneg | constructor].
  - eexists; eexists. split; [reflexivity|].
    rewrite !length_map. cbn [List.length] in *. split; [reflexivity|].
    split; [unfold entry in *; lia|].
    rewrite firstn_all2 in Hn1 by exact H8. exact Hn1.
Qed.

Lemma pie_chart_has_at_most_nine_entries_witness :
  exists (labels : list string) (vals : list Q),
    profit_distribution stable_sort ten_books = Some (labels, vals)
    /\ List.length labels = List.length vals
    /\ List.length vals = Nat.min (List.length ten_books) 9
    /\ Forall (fun v => 0 <= v) vals.
Proof.
  apply (pie_chart_has_at_most_nine_entries stable_sort ten_books).
  - exact stable_sort_sorts.
  - discriminate.
Defined.

Lemma combine_fst_snd {A B : Type} (l : list (A * B)) :
  combine (map fst l) (map snd l) = l.
Proof.
  induction l as [|[a b] l IH]; simpl; [reflexivity | now rewrite IH].
Qed.

(** X15. For a snapshot of one to eight records the chart has no entry
    "Outros" of its own making: its entries are the records, each once
    under its title with its absolute profit, largest first. *)
Theorem small_chart_shows_every_book (sort_values : list entry -> list entry)
  (df : list Book) :
  sorts_descending sort_values -> df <> [] -> (List.length df <= 8)%nat ->
  exists (labels : list string) (vals : list Q),
    profit_distribution sort_values df = Some (labels, vals)
    /\ List.length labels = List.length df
    /\ Permutation (abs_profit df) (combine labels vals)
    /\ descending (combine labels vals).
Proof.
  intros Hsort Hne Hlen.
  destruct (Hsort (abs_profit df)) as [Hp Hd].
  assert (Hl : List.length (sort_values (abs_profit df)) = List.length df).
  { rewrite <- (Permutation_length Hp). unfold abs_profit.
    apply length_map. }
  unfold profit_distribution.
  destruct df as [|b0 df]; [contradiction|]. cbn [is_empty].
  rewrite Hl.
  destruct (Nat.ltb_spec 8 (List.length (b0 :: df))) as [H | _]; [lia|].
  eexists; eexists. split; [reflexivity|].
  rewrite length_map, combine_fst_snd. unfold entry in *.
  split; [exact Hl|]. split; assumption.
Qed.

Lemma small_chart_shows_every_book_witness :
  exists (labels : list string) (vals : list Q),
    profit_distribution stable_sort three_books = Some (labels, vals)
    /\ List.length labels = List.length three_books
    /\ Permutation (abs_profit three_books) (combine labels vals)
    /\ descending (combine labels vals).
Proof.
  apply (small_chart_shows_every_book stable_sort three_books).
  - exact stable_sort_sorts.
  - discriminate.
  - simpl. lia.
Defined.

End ChartFacts.

(** ** Titles stored through the forms *)

Section TitleFacts.

Local Open Scope string_scope.

Lemma lstrip_head (s : string) :
  lstrip s = "" \/ exists c r, lstrip s = String c r /\ isspace c = false.
Proof.
  induction s as [|c s IH]; simpl; [now left|].
  destruct (isspace c) eqn:E; [exact IH|].
  right. now exists c, s.
Qed.

Lemma rstrip_head (c : ascii) (r : string) :
  isspace c = false -> exists r', rstrip (String c r) = String c r'.
Proof.
  intros E. simpl. destruct (rstrip r); rewrite ?E; eauto.
Qed.

Lemma rstrip_idempotent (s : string) : rstrip (rstrip s) = rstrip s.
Proof.
  induction s as [|c s IH]; [reflexivity|].
  simpl. destruct (rstrip s) as [|d k] eqn:E.
  - destruct (isspace c) eqn:Ec; simpl; [reflexivity|]. now rewrite Ec.
  - change (rstrip (String c (String d k))) with
      (match rstrip (String d k) with
       | "" => if isspace c then "" else String c ""
       | kept => String c kept
       end).
    now rewrite IH.
Qed.

Lemma strip_idempotent (s : string) : strip (strip s) = strip s.
Proof.
  unfold strip.
  destruct (lstrip_head s) as [E | (c & r & E & Hc)]; rewrite E.
  - reflexivity.
  - destruct (rstrip_head c r Hc) as [r' E'].
    rewrite E'. cbn [lstrip]. rewrite Hc. rewrite <- E'.
    apply rstrip_idempotent.
Qed.

Lemma truthy_nonempty (s : string) : truthy s = true -> s <> "".
Proof. destruct s; [discriminate | discriminate]. Qed.

Lemma trimmed_after_submit (f : submission) (db : DB) :
  Forall (fun b => trimmed (title b)) (books db) ->
  Forall (fun b => trimmed (title b)) (books (snd (submit f db))).
Proof.
  intros H. destruct f as [t c p | [i|] t c p]; cbn [submit].
  - unfold submit_add. destruct (truthy (strip t)) eqn:Et; cbn [negb].
    + unfold add_book_db.
      destruct (MAX_ROWID <=? _)%Z; cbn [snd books]; [exact H|].
      apply Forall_app. split; [exact H|].
      constructor; [|constructor]. cbn [title].
      split; [now apply truthy_nonempty | apply strip_idempotent].
    + exact H.
  - unfold submit_edit. destruct (truthy (strip t)) eqn:Et; cbn [negb].
    + cbn [update_book_db snd books].
      apply Forall_forall. intros b Hb. apply in_map_iff in Hb.
      destruct Hb as (b0 & <- & Hb0). unfold update_row.
      destruct (id b0 =? i)%Z; cbn [title].
      * split; [now apply truthy_nonempty | apply strip_idempotent].
      * rewrite Forall_forall in H. now apply H.
    + exact H.
  - exact H.
Qed.

(** X17. Whatever is typed into the add and edit forms, in any order,
    every title in a store that started fresh is non-empty and has no
    whitespace at either end: the forms store the trimmed title and
    turn a blank one away. *)
Theorem stored_titles_are_trimmed (fs : list submission) :
  Forall (fun b => trimmed (title b))
         (books (run_forms fs (init_db None))).
Proof.
  change (init_db None) with empty_db.
  assert (H : Forall (fun b => trimmed (title b)) (books empty_db))
    by constructor.
  revert H. generalize empty_db.
  induction fs as [|f fs IH]; intros db H; cbn [run_forms].
  - exact H.
  - apply IH. now apply trimmed_after_submit.
Qed.

Example titles_after_two_submissions :
  map title
      (books (run_forms [SubmitAdd "  Dune " 10 25; SubmitAdd "   " 1 2;
                         SubmitEdit (Some 1%Z) " Dune Messiah" 9 20]
                        (init_db None)))
  = ["Dune Messiah"].
Proof. reflexivity. Qed.

End TitleFacts.

(** ** Reading the export back *)

Section ReaderFacts.

Local Open Scope string_scope.

Lemma utf8_decode_char (c : ascii) (bs : list byte) :
  utf8_decode (utf8_char c ++ bs) = option_map (String c) (utf8_decode bs).
Proof.
  destruct c as [[] [] [] [] [] [] [] []]; reflexivity.
Qed.

Lemma utf8_round_trip (s : string) : utf8_decode (utf8_encode s) = Some s.
Proof.
  induction s as [|c s IH]; [reflexivity|].
  cbn [utf8_encode]. now rewrite utf8_decode_char, IH.
Qed.

(** X18. The bytes of an export decode, under [utf-8-sig], to the very
    text that was encoded, for every frame and line terminator: the
    signature is written once and no character is lost. *)
Theorem export_decodes_to_its_text (linesep : string) (df : DataFrame) :
  decode_utf8_sig (to_csv_bytes linesep df) = Some (to_csv linesep df).
Proof.
  unfold decode_utf8_sig, to_csv_bytes, encode_utf8_sig.
  apply utf8_round_trip.
Qed.

End ReaderFacts.

Section CsvReaderFacts.

Local Open Scope string_scope.

Lemma string_app_nil_r (s : string) : s ++ "" = s.
Proof. induction s as [|c s IH]; simpl; [reflexivity | now rewrite IH]. Qed.

Lemma add_char_app (acc : string) (c : ascii) (f : string) :
  add_char acc c ++ f = acc ++ String c f.
Proof. unfold add_char. now rewrite string_app_assoc. Qed.

Lemma break_is_no_quote (d : ascii) :
  line_break d = true -> Ascii.eqb d quotechar = false.
Proof.
  unfold line_break. intros H. apply orb_prop in H.
  destruct H as [H | H]; apply Ascii.eqb_eq in H; now subst d.
Qed.

Lemma break_is_no_comma (d : ascii) :
  line_break d = true -> Ascii.eqb d "," = false.
Proof.
  unfold line_break. intros H. apply orb_prop in H.
  destruct H as [H | H]; apply Ascii.eqb_eq in H; now subst d.
Qed.

(** An unquoted field is collected up to the character that ends it. *)
Lemma read_in_field (f acc rest : string) :
  forallb (fun c => negb (Ascii.eqb c "," || line_break c))
          (list_ascii_of_string f) = true ->
  read_record IN_FIELD acc (f ++ rest) = read_record IN_FIELD (acc ++ f) rest.
Proof.
  revert acc. induction f as [|c f IH]; intros acc Hf.
  - now rewrite string_app_nil_r.
  - cbn [list_ascii_of_string forallb] in Hf.
    apply andb_prop in Hf. destruct Hf as [Hc Hf].
    apply negb_true_iff, orb_false_elim in Hc. destruct Hc as [H1 H2].
    cbn [append read_record]. rewrite H1, H2, (IH _ Hf).
    now rewrite add_char_app.
Qed.

(** A quoted field is collected up to its closing quote, a doubled
    quote standing for one. *)
Lemma read_in_quoted (f acc rest : string) :
  read_record IN_QUOTED_FIELD acc (double_quotes f ++ String quotechar rest) =
  read_record QUOTE_IN_QUOTED_FIELD (acc ++ f) rest.
Proof.
  revert acc. induction f as [|c f IH]; intros acc.
  - cbn [double_quotes append read_record]. rewrite Ascii.eqb_refl.
    now rewrite string_app_nil_r.
  - cbn [double_quotes].
    destruct (Ascii.eqb c quotechar) eqn:Ec.
    + apply Ascii.eqb_eq in Ec. subst c.
      cbn [append read_record]. rewrite !Ascii.eqb_refl.
      now rewrite IH, add_char_app.
    + cbn [append read_record]. rewrite Ec.
      now rewrite IH, add_char_app.
Qed.

(** What a comma or a line break does at the end of a field. *)
Lemma read_field_end (st : state) (acc : string) (d : ascii) (r : string) :
  st <> IN_QUOTED_FIELD ->
  Ascii.eqb d "," || line_break d = true ->
  read_record st acc (String d r) =
  if Ascii.eqb d "," then save_field acc (read_record START_FIELD "" r)
  else ([acc], after_break d r).
Proof.
  intros Hst Hd. destruct (Ascii.eqb d ",") eqn:Ec.
  - apply Ascii.eqb_eq in Ec. subst d.
    destruct st; try reflexivity. congruence.
  - cbn [orb] in Hd.
    destruct st; cbn [read_record];
      rewrite ?Hd, ?(break_is_no_quote d Hd), ?Ec; congruence.
Qed.

Lemma unquoted_chars (ls f : string) (c : ascii) :
  needs_quoting ls f = false -> In c (list_ascii_of_string f) ->
  Ascii.eqb c "," = false /\ Ascii.eqb c quotechar = false
  /\ one_of ls c = false.
Proof.
  unfold needs_quoting. intros E Hc.
  assert (Hn : (Ascii.eqb c "," || Ascii.eqb c quotechar || one_of ls c)
               = false).
  { destruct (Ascii.eqb c "," || Ascii.eqb c quotechar || one_of ls c)
      eqn:Ec; [|reflexivity].
    rewrite <- E. symmetry. apply existsb_exists. now exists c. }
  apply orb_false_elim in Hn. destruct Hn as [Hn H3].
  apply orb_false_elim in Hn. destruct Hn as [H1 H2]. auto.
Qed.

(** A field as the writer wrote it is read back as it was, provided an
    unquoted field holds no carriage return and no line feed. *)
Lemma read_csv_field (ls f : string) (d : ascii) (r : string) :
  (needs_quoting ls f = false ->
   forallb (fun c => negb (line_break c)) (list_ascii_of_string f) = true) ->
  Ascii.eqb d "," || line_break d = true ->
  read_record START_FIELD "" (csv_field ls f ++ String d r) =
  if Ascii.eqb d "," then save_field f (read_record START_FIELD "" r)
  else ([f], after_break d r).
Proof.
  intros Hok Hd. unfold csv_field.
  destruct (needs_quoting ls f) eqn:E.
  - cbn [append read_record]. change (line_break quotechar) with false.
    cbv iota. rewrite Ascii.eqb_refl.
    rewrite string_app_assoc. cbn [append].
    rewrite read_in_quoted. cbn [append].
    apply read_field_end; [discriminate | exact Hd].
  - specialize (Hok eq_refl).
    assert (Hall : forallb (fun c => negb (Ascii.eqb c "," || line_break c))
                           (list_ascii_of_string f) = true).
    { apply forallb_forall. intros c Hc.
      destruct (unquoted_chars ls f c E Hc) as (H1 & _ & _).
      rewrite forallb_forall in Hok. specialize (Hok c Hc).
      apply negb_true_iff in Hok. now rewrite H1, Hok. }
    destruct f as [|c f].
    + cbn [append]. apply read_field_end; [discriminate | exact Hd].
    + destruct (unquoted_chars ls (String c f) c E (or_introl eq_refl))
        as (H1 & H2 & _).
      cbn [list_ascii_of_string forallb] in Hall.
      apply andb_prop in Hall. destruct Hall as [Hc Hall].
      apply negb_true_iff in Hc. rewrite H1 in Hc. cbn [orb] in Hc.
      cbn [append read_record]. rewrite Hc, H2, H1.
      rewrite (read_in_field f _ _ Hall).
      unfold add_char. cbn [append].
      apply read_field_end; [discriminate | exact Hd].
Qed.

(** A record as the writer wrote it, read back. *)
Lemma read_record_line (ls : string) (fields : list string) (d : ascii)
  (r : string) :
  fields <> [] -> line_break d = true ->
  Forall (fun f => needs_quoting ls f = false ->
                   forallb (fun c => negb (line_break c))
                           (list_ascii_of_string f) = true) fields ->
  read_record START_FIELD "" (join "," (map (csv_field ls) fields) ++ String d r)
  = (fields, after_break d r).
Proof.
  intros Hne Hd Hok. induction fields as [|f fields IH]; [contradiction|].
  inversion Hok as [|? ? Hf Hfs]; subst.
  destruct fields as [|g fields].
  - cbn [map join].
    rewrite (read_csv_field ls f d r Hf)
      by (rewrite Hd; apply orb_true_r).
    now rewrite (break_is_no_comma d Hd).
  - assert (IH' : read_record START_FIELD ""
                    (join "," (map (csv_field ls) (g :: fields))
                     ++ String d r)
                  = (g :: fields, after_break d r))
      by (apply IH; [discriminate | exact Hfs]).
    clear IH.
    change (map (csv_field ls) (f :: g :: fields)) with
      (csv_field ls f :: map (csv_field ls) (g :: fields)).
    remember (map (csv_field ls) (g :: fields)) as tl eqn:Htl.
    assert (Hj : join "," (csv_field ls f :: tl) =
                 csv_field ls f ++ "," ++ join "," tl)
      by (rewrite Htl; reflexivity).
    rewrite Hj, !string_app_assoc. cbn [append].
    rewrite (read_csv_field ls f "," _ Hf) by reflexivity.
    change (Ascii.eqb "," ",") with true. cbv iota.
    now rewrite IH'.
Qed.

Lemma number_char_is_no_break (c : ascii) :
  number_char c = true -> line_break c = false.
Proof.
  destruct c as [[] [] [] [] [] [] [] []]; intros H;
    try discriminate H; reflexivity.
Qed.

Lemma number_has_no_break (s : string) :
  forallb number_char (list_ascii_of_string s) = true ->
  forallb (fun c => negb (line_break c)) (list_ascii_of_string s) = true.
Proof.
  intros H. apply forallb_forall. intros c Hc.
  rewrite forallb_forall in H.
  now rewrite (number_char_is_no_break c (H c Hc)).
Qed.

(** A title that the writer leaves unquoted holds no line break: under
    CRLF because both characters make the writer quote, under LF when
    the title holds no carriage return. *)
Lemma unquoted_title_has_no_break (windows : bool) (t : string) :
  windows = true \/ no_carriage_return t = true ->
  needs_quoting (os_linesep windows) t = false ->
  forallb (fun c => negb (line_break c)) (list_ascii_of_string t) = true.
Proof.
  intros Hw E. apply forallb_forall. intros c Hc.
  destruct (unquoted_chars _ _ c E Hc) as (_ & _ & Hls).
  apply negb_true_iff. unfold line_break.
  destruct windows.
  - unfold one_of in Hls. cbn [os_linesep CRLF LF list_ascii_of_string existsb] in Hls.
    apply orb_false_elim in Hls. destruct Hls as [Hcr Hls].
    apply orb_false_elim in Hls. destruct Hls as [Hlf _].
    change (Ascii.eqb c "013" = false) in Hcr.
    change (Ascii.eqb c "010" = false) in Hlf.
    now rewrite Hcr, Hlf.
  - destruct Hw as [Hw | Hw]; [discriminate|].
    unfold one_of in Hls. cbn [os_linesep LF list_ascii_of_string existsb] in Hls.
    apply orb_false_elim in Hls. destruct Hls as [Hlf _].
    change (Ascii.eqb c "010" = false) in Hlf. rewrite Hlf. cbn [orb].
    unfold no_carriage_return, one_of in Hw. apply negb_true_iff in Hw.
    destruct (Ascii.eqb_spec c "013") as [-> | _]; [|reflexivity].
    rewrite <- Hw. symmetry. apply existsb_exists.
    exists "013"%char. split; [exact Hc | reflexivity].
Qed.

Lemma book_fields_have_no_bare_break (windows : bool) (b : Book) :
  windows = true \/ no_carriage_return (title b) = true ->
  Forall (fun f => needs_quoting (os_linesep windows) f = false ->
                   forallb (fun c => negb (line_break c))
                           (list_ascii_of_string f) = true)
         (book_fields b).
Proof.
  intros Hw. unfold book_fields. repeat constructor.
  - intros _. apply number_has_no_break, str_int_chars.
  - now apply unquoted_title_has_no_break.
  - intros _. apply number_has_no_break, format_2f_chars.
  - intros _. apply number_has_no_break, format_2f_chars.
Qed.

Lemma after_os_linesep (windows : bool) (rest : string) :
  exists (d : ascii) (r : string),
    os_linesep windows ++ rest = String d r
    /\ line_break d = true /\ after_break d r = rest.
Proof.
  destruct windows; eexists; eexists; (split; [reflexivity|]);
    (split; [reflexivity|]).
  - reflexivity.
  - now destruct rest.
Qed.

Lemma str_int_head (n : Z) :
  exists (c : ascii) (t : string),
    str_int n = String c t /\ line_break c = false.
Proof.
  pose proof (str_int_chars n) as H.
  assert (Hne : str_int n <> "").
  { unfold str_int. destruct (n <? 0)%Z; [discriminate|].
    apply decimal_digits. }
  destruct (str_int n) as [|c t]; [contradiction|].
  exists c, t. split; [reflexivity|].
  cbn [list_ascii_of_string forallb] in H. apply andb_prop in H.
  now apply number_char_is_no_break.
Qed.

(** The line of a book is the next record of the text, field for
    field, and the reader goes on after its line terminator. *)
Lemma reader_next_book_line (windows : bool) (b : Book) (rest : string) :
  windows = true \/ no_carriage_return (title b) = true ->
  reader_next (csv_line (os_linesep windows) (book_fields b) ++ rest)
  = Some (book_fields b, rest).
Proof.
  intros Hw.
  assert (Hrec : read_record START_FIELD ""
                   (csv_line (os_linesep windows) (book_fields b) ++ rest)
                 = (book_fields b, rest)).
  { unfold csv_line. rewrite string_app_assoc.
    destruct (after_os_linesep windows rest) as (d & r & -> & Hd & <-).
    apply read_record_line;
      [discriminate | exact Hd | now apply book_fields_have_no_bare_break]. }
  revert Hrec. rewrite book_line.
  destruct (str_int_head (id b)) as (c & t & -> & Hc).
  cbn [append reader_next]. rewrite Hc. now intros ->.
Qed.

Lemma reader_next_header (windows : bool) (rest : string) :
  reader_next ("id,title,cost,price" ++ os_linesep windows ++ rest)
  = Some (base_columns, rest).
Proof.
  destruct windows; [reflexivity|]. now destruct rest.
Qed.

Lemma concat_cons (x : string) (xs : list string) :
  concat "" (x :: xs) = x ++ concat "" xs.
Proof.
  destruct xs; cbn [concat]; [now rewrite string_app_nil_r | reflexivity].
Qed.

Lemma string_length_app (a b : string) :
  String.length (a ++ b) = (String.length a + String.length b)%nat.
Proof. induction a as [|c a IH]; simpl; [reflexivity | now rewrite IH]. Qed.

Lemma lines_are_not_empty (windows : bool) (lines : list (list string)) :
  (List.length lines <=
   String.length (concat "" (map (csv_line (os_linesep windows)) lines)))%nat.
Proof.
  induction lines as [|l lines IH]; [apply Nat.le_refl|].
  cbn [map]. rewrite concat_cons, string_length_app.
  unfold csv_line at 1. rewrite string_length_app. cbn [List.length].
  assert (1 <= String.length (os_linesep windows))%nat
    by (destruct windows; simpl; lia).
  lia.
Qed.

Lemma reader_rows_books (windows : bool) (rows : list Book) (fuel : nat) :
  windows = true
  \/ Forall (fun b => no_carriage_return (title b) = true) rows ->
  (List.length rows <= fuel)%nat ->
  reader_rows fuel
    (concat "" (map (csv_line (os_linesep windows)) (map book_fields rows)))
  = map book_fields rows.
Proof.
  intros Hw. revert fuel.
  induction rows as [|b rows IH]; intros fuel Hf.
  - destruct fuel; reflexivity.
  - destruct fuel as [|fuel]; [simpl in Hf; lia|].
    cbn [map]. rewrite concat_cons. cbn [reader_rows].
    rewrite reader_next_book_line.
    + f_equal. apply IH.
      * destruct Hw as [Hw | Hw]; [now left | right].
        now inversion Hw.
      * simpl in Hf. lia.
    + destruct Hw as [Hw | Hw]; [now left | right].
      now inversion Hw.
Qed.

End CsvReaderFacts.

(** X19. The text of an export, read with the reader of Python's [csv]
    module, gives back the header and then, for every record, its id,
    its title, its cost and its price as they were written, a title
    with commas, quotes or line feeds included.  Under the terminator
    LF this needs the titles to be free of carriage returns; under CRLF
    it needs nothing. *)
Theorem export_reads_back (windows : bool) (rows : list Book) :
  windows = true
  \/ Forall (fun b => no_carriage_return (title b) = true) rows ->
  read_csv (to_csv (os_linesep windows) (Plain rows))
  = ["id"; "title"; "cost"; "price"]%string :: map book_fields rows.
Proof.
  intros Hw. unfold read_csv.
  assert (Hlen : (List.length rows <
                  String.length (to_csv (os_linesep windows) (Plain rows)))%nat).
  { unfold to_csv. rewrite string_length_app. cbn [row_fields].
    pose proof (lines_are_not_empty windows (map book_fields rows)) as H.
    rewrite length_map in H.
    assert (1 <= String.length
                   (csv_line (os_linesep windows) (columns (Plain rows))))%nat
      by (rewrite header_line, string_length_app; simpl; lia).
    lia. }
  destruct (String.length (to_csv (os_linesep windows) (Plain rows)))
    as [|fuel]; [lia|].
  unfold to_csv. rewrite header_line, string_app_assoc.
  cbn [reader_rows]. rewrite reader_next_header. cbn [row_fields].
  f_equal. apply reader_rows_books; [exact Hw | lia].
Qed.

Lemma export_reads_back_witness :
  read_csv (to_csv (os_linesep false)
              (Plain [mkBook 7 "Dune, part 1" 10 25; mkBook 8 "Emma" 3 4]))
  = [["id"; "title"; "cost"; "price"];
     ["7"; "Dune, part 1"; "10.00"; "25.00"];
     ["8"; "Emma"; "3.00"; "4.00"]]%string.
Proof.
  apply (export_reads_back false
           [mkBook 7 "Dune, part 1" 10 25; mkBook 8 "Emma" 3 4]).
  right. repeat constructor.
Defined.

(** Under LF a carriage return in a title is written without quotes,
    and the reader ends the record there: the line of the book comes
    back as two records. *)
Example carriage_return_splits_the_record :
  to_csv LF (Plain [mkBook 7 (String "a" (String "013" "b")) 1 2])
  = ("id,title,cost,price" ++ LF
     ++ "7,a" ++ String "013" "b,1.00,2.00" ++ LF)%string
  /\ read_csv (to_csv LF (Plain [mkBook 7 (String "a" (String "013" "b")) 1 2]))
     = [["id"; "title"; "cost"; "price"]; ["7"; "a"];
        ["b"; "1.00"; "2.00"]]%string.
Proof. split; reflexivity. Qed.

(** X20. The export button gives the warning, and no bytes, exactly
    when the table has no rows. *)
Theorem export_warns_only_when_empty (linesep : string) (db : DB) :
  export_csv linesep db = None <-> books db = [].
Proof.
  unfold export_csv.
  destruct (fetch_books_df_ordered db) as [Hp _].
  destruct (fetch_books_df db) as [|b l] eqn:E; cbn [is_empty].
  - split; [intros _ | reflexivity].
    now apply Permutation_nil, Permutation_sym.
  - split; [discriminate|]. intros Hb. rewrite Hb in Hp.
    apply Permutation_nil in Hp. discriminate.
Qed.
